(** * FRAM_FM24CXX_I2C: an Arduino driver for FM24C04-class I2C FRAM chips

    A shallow embedding of [FRAM_FM24CXX_I2C.h] / [FRAM_FM24CXX_I2C.cpp].

    - Integers are [Z]; conversions to [uint8_t] / [uint16_t] are written
      out as [mod].
    - The driver talks to two collaborators that are not part of the
      repository: the [Wire] bus object and the GPIO functions.  Both are
      modelled as recording doubles; the bus double has FRAM cells behind
      it so that data written can be read back.
    - Out-parameters are returned next to the status code.
    - The [SERIAL_DEBUG] blocks only print and are left out. *)

From Stdlib Require Import ZArith List Bool Lia.
Import ListNotations.
Local Open Scope Z_scope.

(** ** Constants of the header *)

Definition MAXADDRESS_04 : Z := 512.

Definition MANAGE_WP : bool := false.
Definition DEFAULT_WP_PIN : Z := 13.
Definition DEFAULT_WP_STATUS : bool := false.

Definition ERROR_0 : Z := 0.   (* Success *)
Definition ERROR_1 : Z := 1.   (* Data too long for the transmission buffer *)
Definition ERROR_2 : Z := 2.   (* NACK on transmit of address *)
Definition ERROR_3 : Z := 3.   (* NACK on transmit of data *)
Definition ERROR_4 : Z := 4.   (* Serial seems not available *)
Definition ERROR_5 : Z := 5.   (* Not referenced device ID *)
Definition ERROR_6 : Z := 6.   (* Unused *)
Definition ERROR_7 : Z := 6.   (* Fram chip unidentified *)
Definition ERROR_8 : Z := 8.   (* Number of bytes asked to read null *)
Definition ERROR_9 : Z := 9.   (* Bit position out of range *)
Definition ERROR_10 : Z := 10. (* Not permitted operation *)
Definition ERROR_11 : Z := 11. (* Memory address out of range *)

(** ** Machine integers *)

Definition uint8 (x : Z) : Z := x mod 256.
Definition uint16 (x : Z) : Z := x mod 65536.
Definition uint32 (x : Z) : Z := x mod 4294967296.

(** Width of the C++ type [int] on the build target.  It decides how
    [framAddr + (uint16_t) items - 1] is evaluated: where [int] has 16 bits
    (the AVR boards) [uint16_t] is [unsigned int] and the sum wraps modulo
    2^16; where [int] has 32 bits both operands are promoted to [int] and
    the sum is exact (and may be -1). *)
Inductive IntWidth : Set := Int16 | Int32.

(** ** Arduino bit macros ([Arduino.h]), applied to a [uint8_t] lvalue *)

(* #define bitRead(value, bit) (((value) >> (bit)) & 0x01) *)
Definition bitRead (value bit : Z) : Z := Z.land (Z.shiftr value bit) 1.
(* #define bitSet(value, bit) ((value) |= (1UL << (bit))) *)
Definition bitSet (value bit : Z) : Z := uint8 (Z.lor value (Z.shiftl 1 bit)).
(* #define bitClear(value, bit) ((value) &= ~(1UL << (bit))) *)
Definition bitClear (value bit : Z) : Z :=
  uint8 (Z.land value (Z.lnot (Z.shiftl 1 bit))).

(** ** The bus double

    [Wire] is the Arduino I2C master.  The double records every call and
    plays a bus populated with FM24C04-class cells: a 7-bit selector
    addresses one 256-byte page, the device keeps an 8-bit word-address
    latch, a write transaction carries the word address followed by data
    bytes, and a read request returns bytes of the page selected by the
    read request's own selector, starting at the latch.  After each byte
    the address advances, carrying from offset 255 into the page bit.

    Transport failures are scripted: [txScript] lists the status codes
    the coming [endTransmission] calls return, [rxScript] which of the
    coming [requestFrom] calls fail.  An exhausted script means success. *)

Inductive WireCall : Type :=
| CallBeginTransmission (address : Z)
| CallWrite (data : Z)
| CallEndTransmission (status : Z)
| CallRequestFrom (address quantity : Z)
| CallRead (value : Z).

Record TwoWire : Type := mkWire {
  cells : Z -> Z -> Z;      (* selector -> word address -> stored byte *)
  latch : Z;                (* word-address latch of the device *)
  txAddress : Z;            (* selector of the transaction being queued *)
  txBuffer : list Z;        (* bytes queued by write, oldest first *)
  rxBuffer : list Z;        (* bytes received by the last requestFrom *)
  txScript : list Z;
  rxScript : list bool;
  calls : list WireCall     (* every call so far, oldest first *)
}.

Definition fault_free (w : TwoWire) : Prop :=
  txScript w = [] /\ rxScript w = [].

Definition set_cell (c : Z -> Z -> Z) (sel off v : Z) : Z -> Z -> Z :=
  fun s o => if (s =? sel) && (o =? off) then v else c s o.

(** The next cell after [(sel, off)]. *)
Definition advance (pos : Z * Z) : Z * Z :=
  let '(sel, off) := pos in
  if off =? 255 then (Z.lxor sel 1, 0) else (sel, off + 1).

Fixpoint store_bytes (c : Z -> Z -> Z) (pos : Z * Z) (data : list Z)
  : (Z -> Z -> Z) * (Z * Z) :=
  match data with
  | [] => (c, pos)
  | d :: rest => store_bytes (set_cell c (fst pos) (snd pos) d) (advance pos) rest
  end.

Fixpoint fetch_bytes (c : Z -> Z -> Z) (pos : Z * Z) (n : nat)
  : list Z * (Z * Z) :=
  match n with
  | O => ([], pos)
  | S k => let '(rest, pos') := fetch_bytes c (advance pos) k in
           (c (fst pos) (snd pos) :: rest, pos')
  end.

Definition log (w : TwoWire) (e : WireCall) : TwoWire :=
  mkWire (cells w) (latch w) (txAddress w) (txBuffer w) (rxBuffer w)
         (txScript w) (rxScript w) (calls w ++ [e]).

(* void TwoWire::beginTransmission(int address) *)
Definition beginTransmission (w : TwoWire) (address : Z) : TwoWire :=
  log (mkWire (cells w) (latch w) (uint8 address) [] (rxBuffer w)
              (txScript w) (rxScript w) (calls w))
      (CallBeginTransmission address).

(* size_t TwoWire::write(uint8_t data) *)
Definition write (w : TwoWire) (data : Z) : TwoWire :=
  log (mkWire (cells w) (latch w) (txAddress w) (txBuffer w ++ [uint8 data])
              (rxBuffer w) (txScript w) (rxScript w) (calls w))
      (CallWrite data).

(** What an acknowledged write transaction does to the device. *)
Definition deliver (w : TwoWire) : (Z -> Z -> Z) * Z :=
  match txBuffer w with
  | [] => (cells w, latch w)
  | sub :: data =>
      let '(c, pos) := store_bytes (cells w) (txAddress w, sub) data in
      (c, snd pos)
  end.

(* uint8_t TwoWire::endTransmission(void) *)
Definition endTransmission (w : TwoWire) : Z * TwoWire :=
  let status := uint8 (hd 0 (txScript w)) in
  let '(c, l) := if status =? 0 then deliver w else (cells w, latch w) in
  (status,
   log (mkWire c l (txAddress w) [] (rxBuffer w)
               (tl (txScript w)) (rxScript w) (calls w))
       (CallEndTransmission status)).

(* uint8_t TwoWire::requestFrom(uint8_t address, uint8_t quantity);
   the driver discards the returned count. *)
Definition requestFrom (w : TwoWire) (address quantity : Z) : TwoWire :=
  let '(rx, l) :=
    if hd false (rxScript w) then ([], latch w)
    else let '(bytes, pos) :=
           fetch_bytes (cells w) (uint8 address, latch w) (Z.to_nat quantity) in
         (bytes, snd pos) in
  log (mkWire (cells w) l (txAddress w) (txBuffer w) rx
              (txScript w) (tl (rxScript w)) (calls w))
      (CallRequestFrom address quantity).

(* int TwoWire::read(void): -1 when nothing is left *)
Definition read (w : TwoWire) : Z * TwoWire :=
  let v := match rxBuffer w with [] => -1 | b :: _ => b end in
  (v,
   log (mkWire (cells w) (latch w) (txAddress w) (txBuffer w) (tl (rxBuffer w))
               (txScript w) (rxScript w) (calls w))
       (CallRead v)).

(** ** The GPIO double *)

Inductive PinLevel : Set := LOW | HIGH.
Inductive PinMode : Set := INPUT | OUTPUT.

Inductive GpioCall : Type :=
| CallPinMode (pin : Z) (mode : PinMode)
| CallDigitalWrite (pin : Z) (level : PinLevel).

Definition pinMode (g : list GpioCall) (pin : Z) (mode : PinMode) :=
  g ++ [CallPinMode pin mode].
Definition digitalWrite (g : list GpioCall) (pin : Z) (level : PinLevel) :=
  g ++ [CallDigitalWrite pin level].

(** ** The device handle (private members of the class) *)

Record FRAM_FM24CXX_I2C : Type := mkFRAM {
  i2c_addr : Z;       (* uint8_t *)
  wpPin : Z;          (* int *)
  wpStatus : bool     (* boolean *)
}.

(** ** Arrays

    A C array is a list; [values[i]] outside the list is undefined in the
    source and reads as 0 / stores nothing here. *)

Fixpoint store (i : nat) (v : Z) (l : list Z) : list Z :=
  match l, i with
  | [], _ => []
  | _ :: t, O => v :: t
  | x :: t, S k => x :: store k v t
  end.

(** An automatic array of [n] bytes that the source leaves uninitialised:
    its contents are whatever [junk] holds. *)
Definition local_buffer (n : nat) (junk : list Z) : list Z :=
  map (fun i => uint8 (nth i junk 0)) (seq 0 n).

(** ** Transfer primitives *)

(* framAddr + (uint16_t) items - 1 *)
Definition last_address (iw : IntWidth) (framAddr items : Z) : Z :=
  match iw with
  | Int16 => uint16 (uint16 (framAddr + items) - 1)
  | Int32 => framAddr + items - 1
  end.

(* (framAddr >= MAXADDRESS_04) ||
   ((framAddr + (uint16_t) items - 1) >= MAXADDRESS_04) *)
Definition out_of_range (iw : IntWidth) (framAddr items : Z) : bool :=
  (MAXADDRESS_04 <=? framAddr) || (MAXADDRESS_04 <=? last_address iw framAddr items).

(* i2c_addr | ((framAddr >> 8) & 0x1) *)
Definition selector (h : FRAM_FM24CXX_I2C) (framAddr : Z) : Z :=
  Z.lor (i2c_addr h) (Z.land (Z.shiftr framAddr 8) 1).

(* for (byte i=0; i < items ; i++) Wire.write(values[i]); *)
Definition write_items (w : TwoWire) (items : Z) (values : list Z) : TwoWire :=
  fold_left (fun w i => write w (nth i values 0)) (seq 0 (Z.to_nat items)) w.

(* for (byte i=0; i < items; i++) values[i] = Wire.read(); *)
Definition read_items (w : TwoWire) (items : Z) (values : list Z)
  : list Z * TwoWire :=
  fold_left (fun st i => let '(v, w') := read (snd st) in
                         (store i (uint8 v) (fst st), w'))
            (seq 0 (Z.to_nat items)) (values, w).

Definition writeArray (iw : IntWidth) (h : FRAM_FM24CXX_I2C) (w : TwoWire)
    (framAddr items : Z) (values : list Z) : Z * TwoWire :=
  if out_of_range iw framAddr items then (ERROR_11, w)
  else
    let w := beginTransmission w (selector h framAddr) in
    let w := write w (Z.land framAddr 255) in
    let w := write_items w items values in
    endTransmission w.

Definition writeByte (iw : IntWidth) (h : FRAM_FM24CXX_I2C) (w : TwoWire)
    (framAddr value : Z) : Z * TwoWire :=
  let buffer := [uint8 value] in
  writeArray iw h w framAddr 1 buffer.

Definition readArray (iw : IntWidth) (h : FRAM_FM24CXX_I2C) (w : TwoWire)
    (framAddr items : Z) (values : list Z) : Z * list Z * TwoWire :=
  if out_of_range iw framAddr items then (ERROR_11, values, w)
  else if items =? 0 then (ERROR_8, values, w)
  else
    let w := beginTransmission w (selector h framAddr) in
    let w := write w (Z.land framAddr 255) in
    let '(result, w) := endTransmission w in
    let w := requestFrom w (i2c_addr h) (uint8 items) in
    let '(values, w) := read_items w items values in
    (result, values, w).

Definition readByte (iw : IntWidth) (h : FRAM_FM24CXX_I2C) (w : TwoWire)
    (junk : list Z) (framAddr : Z) : Z * Z * TwoWire :=
  let buffer := local_buffer 1 junk in
  let '(result, buffer, w) := readArray iw h w framAddr 1 buffer in
  (result, nth 0 buffer 0, w).

Definition copyByte (iw : IntWidth) (h : FRAM_FM24CXX_I2C) (w : TwoWire)
    (junk : list Z) (origAddr destAddr : Z) : Z * TwoWire :=
  let buffer := local_buffer 1 junk in
  let '(result, value, w) := readByte iw h w junk origAddr in
  let buffer := store 0 value buffer in
  writeByte iw h w destAddr (nth 0 buffer 0).

(** ** Bit accessors *)

Definition readBit (iw : IntWidth) (h : FRAM_FM24CXX_I2C) (w : TwoWire)
    (junk : list Z) (framAddr bitNb bit : Z) : Z * Z * TwoWire :=
  if 7 <? bitNb then (ERROR_9, bit, w)
  else
    let buffer := local_buffer 1 junk in
    let '(result, buffer, w) := readArray iw h w framAddr 1 buffer in
    (result, uint8 (bitRead (nth 0 buffer 0) bitNb), w).

Definition setOneBit (iw : IntWidth) (h : FRAM_FM24CXX_I2C) (w : TwoWire)
    (junk : list Z) (framAddr bitNb : Z) : Z * TwoWire :=
  if 7 <? bitNb then (ERROR_9, w)
  else
    let buffer := local_buffer 1 junk in
    let '(result, buffer, w) := readArray iw h w framAddr 1 buffer in
    let buffer := store 0 (bitSet (nth 0 buffer 0) bitNb) buffer in
    writeArray iw h w framAddr 1 buffer.

Definition clearOneBit (iw : IntWidth) (h : FRAM_FM24CXX_I2C) (w : TwoWire)
    (junk : list Z) (framAddr bitNb : Z) : Z * TwoWire :=
  if 7 <? bitNb then (ERROR_9, w)
  else
    let buffer := local_buffer 1 junk in
    let '(result, buffer, w) := readArray iw h w framAddr 1 buffer in
    let buffer := store 0 (bitClear (nth 0 buffer 0) bitNb) buffer in
    writeArray iw h w framAddr 1 buffer.

Definition toggleBit (iw : IntWidth) (h : FRAM_FM24CXX_I2C) (w : TwoWire)
    (junk : list Z) (framAddr bitNb : Z) : Z * TwoWire :=
  if 7 <? bitNb then (ERROR_9, w)
  else
    let buffer := local_buffer 1 junk in
    let '(result, buffer, w) := readArray iw h w framAddr 1 buffer in
    let buffer :=
      if Z.land (nth 0 buffer 0) (Z.shiftl 1 bitNb) =? Z.shiftl 1 bitNb
      then store 0 (bitClear (nth 0 buffer 0) bitNb) buffer
      else store 0 (bitSet (nth 0 buffer 0) bitNb) buffer in
    writeArray iw h w framAddr 1 buffer.

(** ** Word accessors

    [reinterpret_cast] between an integer and its bytes: every Arduino
    target is little-endian, the low byte comes first. *)

Definition bytes_of (n : nat) (value : Z) : list Z :=
  map (fun i => Z.land (Z.shiftr value (8 * Z.of_nat i)) 255) (seq 0 n).

Definition value_of (buffer : list Z) : Z :=
  fold_right (fun b acc => b + 256 * acc) 0 buffer.

Definition readWord (iw : IntWidth) (h : FRAM_FM24CXX_I2C) (w : TwoWire)
    (junk : list Z) (framAddr : Z) : Z * Z * TwoWire :=
  let buffer := local_buffer 2 junk in
  let '(result, buffer, w) := readArray iw h w framAddr 2 buffer in
  (result, value_of buffer, w).

Definition writeWord (iw : IntWidth) (h : FRAM_FM24CXX_I2C) (w : TwoWire)
    (framAddr value : Z) : Z * TwoWire :=
  let buffer := bytes_of 2 (uint16 value) in
  writeArray iw h w framAddr 2 buffer.

Definition readLong (iw : IntWidth) (h : FRAM_FM24CXX_I2C) (w : TwoWire)
    (junk : list Z) (framAddr : Z) : Z * Z * TwoWire :=
  let buffer := local_buffer 4 junk in
  let '(result, buffer, w) := readArray iw h w framAddr 4 buffer in
  (result, value_of buffer, w).

Definition writeLong (iw : IntWidth) (h : FRAM_FM24CXX_I2C) (w : TwoWire)
    (framAddr value : Z) : Z * TwoWire :=
  let buffer := bytes_of 4 (uint32 value) in
  writeArray iw h w framAddr 4 buffer.

(** ** Write protection

    [manage] is the value of the macro [MANAGE_WP] the library is built
    with; the header sets it to [false]. *)

Definition set_wpPin (h : FRAM_FM24CXX_I2C) (pin : Z) : FRAM_FM24CXX_I2C :=
  mkFRAM (i2c_addr h) pin (wpStatus h).
Definition set_wpStatus (h : FRAM_FM24CXX_I2C) (b : bool) : FRAM_FM24CXX_I2C :=
  mkFRAM (i2c_addr h) (wpPin h) b.

Definition getWPStatus (h : FRAM_FM24CXX_I2C) : bool := wpStatus h.

Definition enableWP (manage : bool) (h : FRAM_FM24CXX_I2C) (g : list GpioCall)
  : Z * FRAM_FM24CXX_I2C * list GpioCall :=
  if manage then
    let g := digitalWrite g (wpPin h) HIGH in
    let h := set_wpStatus h true in
    (ERROR_0, h, g)
  else (ERROR_10, h, g).

Definition disableWP (manage : bool) (h : FRAM_FM24CXX_I2C) (g : list GpioCall)
  : Z * FRAM_FM24CXX_I2C * list GpioCall :=
  if manage then
    let g := digitalWrite g (wpPin h) LOW in
    let h := set_wpStatus h false in
    (ERROR_0, h, g)
  else (ERROR_10, h, g).

Definition initWP (manage : bool) (h : FRAM_FM24CXX_I2C) (g : list GpioCall)
    (wp : bool) : Z * FRAM_FM24CXX_I2C * list GpioCall :=
  if manage then
    let g := pinMode g (wpPin h) OUTPUT in
    if wp then enableWP manage h g else disableWP manage h g
  else
    let h := set_wpStatus h false in
    (ERROR_0, h, g).

(** ** Constructor

    [this] is the storage the object is built in, with whatever it held
    before: the constructor has no member initialisers.  Its first
    parameter is named like the member [i2c_addr] and hides it, so the
    first statement assigns the parameter to itself. *)

Definition constructor (manage : bool) (this : FRAM_FM24CXX_I2C)
    (g : list GpioCall) (i2c_addr : Z) (wp : bool) (pin : Z) (chipDensity : Z)
  : FRAM_FM24CXX_I2C * list GpioCall :=
  let i2c_addr := i2c_addr in                       (* i2c_addr = i2c_addr; *)
  let this := set_wpPin this pin in                 (* wpPin = pin; *)
  let '(result, this, g) := initWP manage this g wp in
  (this, g).

(* void begin(void): debug output only *)
Definition begin (h : FRAM_FM24CXX_I2C) : FRAM_FM24CXX_I2C := h.

(** ** Whole-device erase

    The [while] loop runs on fuel; [None] means the fuel ran out. *)

Fixpoint eraseDevice_loop (fuel : nat) (iw : IntWidth) (h : FRAM_FM24CXX_I2C)
    (w : TwoWire) (i result : Z) : option (Z * TwoWire) :=
  if (i <? MAXADDRESS_04) && (result =? 0) then
    match fuel with
    | O => None
    | S fuel' =>
        let '(result, w) := writeByte iw h w i 0 in
        eraseDevice_loop fuel' iw h w (uint16 (i + 1)) result
    end
  else Some (result, w).

Definition eraseDevice (iw : IntWidth) (h : FRAM_FM24CXX_I2C) (w : TwoWire)
  : option (Z * TwoWire) :=
  eraseDevice_loop (Z.to_nat MAXADDRESS_04) iw h w 0 0.

(** ** The driver and its collaborators as one system *)

Record System : Type := mkSystem {
  dev : FRAM_FM24CXX_I2C;
  bus : TwoWire;
  pins : list GpioCall
}.

(** The public member functions, with their arguments.  [junk] stands for
    the contents of the callee's uninitialised local buffer. *)
Inductive Call : Type :=
| Begin
| ReadBit (junk : list Z) (framAddr bitNb bit : Z)
| SetOneBit (junk : list Z) (framAddr bitNb : Z)
| ClearOneBit (junk : list Z) (framAddr bitNb : Z)
| ToggleBit (junk : list Z) (framAddr bitNb : Z)
| ReadArray (framAddr items : Z) (values : list Z)
| WriteArray (framAddr items : Z) (values : list Z)
| ReadByte (junk : list Z) (framAddr : Z)
| WriteByte (framAddr value : Z)
| CopyByte (junk : list Z) (origAddr destAddr : Z)
| ReadWord (junk : list Z) (framAddr : Z)
| WriteWord (framAddr value : Z)
| ReadLong (junk : list Z) (framAddr : Z)
| WriteLong (framAddr value : Z)
| GetWPStatus
| EnableWP
| DisableWP
| EraseDevice.

Definition on_bus (s : System) (w : TwoWire) : System :=
  mkSystem (dev s) w (pins s).

(** The system after a call returns ([None]: the call does not return). *)
Definition run (iw : IntWidth) (manage : bool) (c : Call) (s : System)
  : option System :=
  let h := dev s in
  let w := bus s in
  match c with
  | Begin => Some (mkSystem (begin h) w (pins s))
  | ReadBit junk a n b => Some (on_bus s (snd (readBit iw h w junk a n b)))
  | SetOneBit junk a n => Some (on_bus s (snd (setOneBit iw h w junk a n)))
  | ClearOneBit junk a n => Some (on_bus s (snd (clearOneBit iw h w junk a n)))
  | ToggleBit junk a n => Some (on_bus s (snd (toggleBit iw h w junk a n)))
  | ReadArray a n vs => Some (on_bus s (snd (readArray iw h w a n vs)))
  | WriteArray a n vs => Some (on_bus s (snd (writeArray iw h w a n vs)))
  | ReadByte junk a => Some (on_bus s (snd (readByte iw h w junk a)))
  | WriteByte a v => Some (on_bus s (snd (writeByte iw h w a v)))
  | CopyByte junk a b => Some (on_bus s (snd (copyByte iw h w junk a b)))
  | ReadWord junk a => Some (on_bus s (snd (readWord iw h w junk a)))
  | WriteWord a v => Some (on_bus s (snd (writeWord iw h w a v)))
  | ReadLong junk a => Some (on_bus s (snd (readLong iw h w junk a)))
  | WriteLong a v => Some (on_bus s (snd (writeLong iw h w a v)))
  | GetWPStatus => Some s
  | EnableWP =>
      let '(_, h', g') := enableWP manage h (pins s) in Some (mkSystem h' w g')
  | DisableWP =>
      let '(_, h', g') := disableWP manage h (pins s) in Some (mkSystem h' w g')
  | EraseDevice =>
      match eraseDevice iw h w with
      | Some (_, w') => Some (on_bus s w')
      | None => None
      end
  end.

(** A system is reachable when it results from constructing the handle and
    then calling public member functions. *)
Inductive reachable (iw : IntWidth) (manage : bool) : System -> Prop :=
| reach_constructed this g w i2c wp pin chipDensity h g' :
    constructor manage this g i2c wp pin chipDensity = (h, g') ->
    reachable iw manage (mkSystem h w g')
| reach_call s c s' :
    reachable iw manage s ->
    run iw manage c s = Some s' ->
    reachable iw manage s'.

(** Test fixtures: a bus with all cells zero and nothing scripted, a handle
    at the FM24C04 base selector 0x50, and the same bus with the byte 0xF0
    in the first cell of page 0x51. *)
Definition blank : TwoWire := mkWire (fun _ _ => 0) 0 0 [] [] [] [] [].
Definition fram50 : FRAM_FM24CXX_I2C := mkFRAM 80 DEFAULT_WP_PIN false.
Definition page1_F0 : TwoWire :=
  mkWire (set_cell (fun _ _ => 0) 81 0 240) 0 0 [] [] [] [] [].

(** The same bus with another read-failure script. *)
Definition with_rxScript (w : TwoWire) (rs : list bool) : TwoWire :=
  mkWire (cells w) (latch w) (txAddress w) (txBuffer w) (rxBuffer w)
         (txScript w) rs (calls w).

(** [eraseDevice] as the specification words it: the addresses in order,
    one single-byte write of 0x00 each, stopping at the first nonzero
    status. *)
Fixpoint erase_in_order (iw : IntWidth) (h : FRAM_FM24CXX_I2C)
    (addrs : list Z) (w : TwoWire) : Z * TwoWire :=
  match addrs with
  | [] => (0, w)
  | a :: rest =>
      let '(status, w') := writeByte iw h w a 0 in
      if status =? 0 then erase_in_order iw h rest w' else (status, w')
  end.

Definition addresses (n : nat) : list Z := map Z.of_nat (seq 0 n).

(** The calls of one single-byte write transaction that succeeds. *)
Definition byte_write_calls (h : FRAM_FM24CXX_I2C) (a v : Z) : list WireCall :=
  [CallBeginTransmission (selector h a); CallWrite (Z.land a 255);
   CallWrite v; CallEndTransmission 0].

(** The bus after the calls of an accepted [writeArray], just before
    [endTransmission]. *)
Definition queued (h : FRAM_FM24CXX_I2C) (w : TwoWire) (framAddr items : Z)
    (values : list Z) : TwoWire :=
  write_items (write (beginTransmission w (selector h framAddr))
                     (Z.land framAddr 255)) items values.

(** The two branches of [toggleBit], on the byte read. *)
Definition toggled (b bitNb : Z) : Z :=
  if Z.land b (Z.shiftl 1 bitNb) =? Z.shiftl 1 bitNb
  then bitClear b bitNb else bitSet b bitNb.

(** The byte stored at logical address [a]: the cell a write to [a]
    addresses. *)
Definition byte_at (h : FRAM_FM24CXX_I2C) (w : TwoWire) (a : Z) : Z :=
  cells w (uint8 (selector h a)) (uint8 (Z.land a 255)).

(** The bytes the reads after a [requestFrom] return when the receive
    buffer holds [rx]: the buffer in order, then -1 for ever. *)
Definition reads_of (rx : list Z) (n : nat) : list Z :=
  map (fun i => nth i rx (-1)) (seq 0 n).

(** A sequence of calls, one after the other. *)
Fixpoint run_all (iw : IntWidth) (manage : bool) (cs : list Call) (s : System)
  : option System :=
  match cs with
  | [] => Some s
  | c :: rest =>
      match run iw manage c s with
      | Some s' => run_all iw manage rest s'
      | None => None
      end
  end.

(** The level [enableWP] / [disableWP] drive for a given [wpStatus]. *)
Definition level_of (status : bool) : PinLevel :=
  if status then HIGH else LOW.

(** * Properties *)

(** ** Address validation *)

Lemma out_of_range_beyond iw framAddr items :
  0 <= framAddr < 65536 -> 1 <= items <= 255 ->
  MAXADDRESS_04 < framAddr + items ->
  out_of_range iw framAddr items = true.
Proof.
  unfold out_of_range, last_address, uint16, MAXADDRESS_04.
  intros Ha Hn Hsum.
  destruct (Z.leb_spec 512 framAddr) as [Hge | Hlt]; [reflexivity | simpl].
  apply Z.leb_le.
  destruct iw; [ | lia].
  rewrite (Z.mod_small (framAddr + items)) by lia.
  rewrite Z.mod_small by lia. lia.
Qed.

Lemma out_of_range_within iw framAddr items :
  0 <= framAddr -> 1 <= items ->
  framAddr + items <= MAXADDRESS_04 ->
  out_of_range iw framAddr items = false.
Proof.
  unfold out_of_range, last_address, uint16, MAXADDRESS_04.
  intros Ha Hn Hsum.
  apply orb_false_iff; split; apply Z.leb_gt; [lia | ].
  destruct iw; [ | lia].
  rewrite (Z.mod_small (framAddr + items)) by lia.
  rewrite Z.mod_small by lia. lia.
Qed.

(** C1: a request that runs past the capacity (addr + length > 512, with
    1 <= length <= 255) makes both [writeArray] and [readArray] return
    ERROR_11 and leaves the bus double untouched: no call is recorded. *)
Theorem out_of_range_request_rejected iw h w framAddr items values :
  0 <= framAddr < 65536 -> 1 <= items <= 255 ->
  framAddr + items > MAXADDRESS_04 ->
  writeArray iw h w framAddr items values = (ERROR_11, w) /\
  readArray iw h w framAddr items values = (ERROR_11, values, w).
Proof.
  intros Ha Hn Hsum.
  unfold writeArray, readArray.
  rewrite out_of_range_beyond by lia.
  split; reflexivity.
Qed.

Lemma out_of_range_request_rejected_witness :
  writeArray Int16 fram50 blank 510 3 [1; 2; 3] = (ERROR_11, blank) /\
  readArray Int16 fram50 blank 510 3 [1; 2; 3] = (ERROR_11, [1; 2; 3], blank).
Proof.
  apply (out_of_range_request_rejected Int16 fram50 blank 510 3 [1; 2; 3]);
    unfold MAXADDRESS_04; lia.
Defined.

(** ** Empty read requests *)

(** Where the check's arithmetic does not wrap, a read of length 0 inside
    the device is answered with ERROR_8 and no bus activity. *)
Lemma readArray_empty_request iw h w framAddr values :
  0 <= framAddr < MAXADDRESS_04 ->
  iw = Int32 \/ 1 <= framAddr ->
  readArray iw h w framAddr 0 values = (ERROR_8, values, w).
Proof.
  unfold readArray, out_of_range, last_address, uint16, MAXADDRESS_04.
  intros Ha Hcase.
  assert (Hlast : (512 <=? match iw with
                           | Int16 => ((framAddr + 0) mod 65536 - 1) mod 65536
                           | Int32 => framAddr + 0 - 1
                           end) = false).
  { apply Z.leb_gt. destruct iw.
    - destruct Hcase as [Hiw | Hpos]; [discriminate | ].
      rewrite (Z.mod_small (framAddr + 0)) by lia.
      rewrite Z.mod_small by lia. lia.
    - lia. }
  rewrite Hlast.
  destruct (Z.leb_spec 512 framAddr); [lia | reflexivity].
Qed.

(** C4: with a 16-bit [int], [readArray(0, 0, out)] is rejected by the
    range check, whose [0 + 0 - 1] wraps to 65535, and returns ERROR_11
    where ERROR_8 is specified. *)
Theorem readArray_empty_request_at_zero h w values :
  readArray Int16 h w 0 0 values = (ERROR_11, values, w) /\
  ERROR_11 <> ERROR_8.
Proof.
  split; [reflexivity | discriminate].
Qed.

(** ** Bit index validation *)

(** C7: for a bit index above 7, [readBit], [setOneBit], [clearOneBit]
    and [toggleBit] return ERROR_9 and hand back the bus double as they
    got it: no call recorded, no cell changed, the caller's bit untouched. *)
Theorem bit_index_out_of_range iw h w junk framAddr bitNb bit :
  7 < bitNb ->
  readBit iw h w junk framAddr bitNb bit = (ERROR_9, bit, w) /\
  setOneBit iw h w junk framAddr bitNb = (ERROR_9, w) /\
  clearOneBit iw h w junk framAddr bitNb = (ERROR_9, w) /\
  toggleBit iw h w junk framAddr bitNb = (ERROR_9, w).
Proof.
  intros Hbit.
  unfold readBit, setOneBit, clearOneBit, toggleBit.
  apply Z.ltb_lt in Hbit. rewrite Hbit.
  repeat split.
Qed.

Lemma bit_index_out_of_range_witness :
  readBit Int16 fram50 page1_F0 [] 256 8 1 = (ERROR_9, 1, page1_F0) /\
  setOneBit Int16 fram50 page1_F0 [] 256 8 = (ERROR_9, page1_F0) /\
  clearOneBit Int16 fram50 page1_F0 [] 256 8 = (ERROR_9, page1_F0) /\
  toggleBit Int16 fram50 page1_F0 [] 256 8 = (ERROR_9, page1_F0).
Proof.
  apply (bit_index_out_of_range Int16 fram50 page1_F0 [] 256 8 1). lia.
Defined.

(** ** The write transaction *)

Lemma map_nth_seq (values : list Z) :
  map (fun i => nth i values 0) (seq 0 (length values)) = values.
Proof.
  apply nth_ext with (d := 0) (d' := 0).
  - now rewrite length_map, length_seq.
  - intros n Hn. rewrite length_map, length_seq in Hn.
    rewrite (nth_indep _ 0 (nth 0%nat values 0)) by now rewrite length_map, length_seq.
    rewrite (map_nth (fun i => nth i values 0) (seq 0 (length values)) 0%nat n).
    now rewrite seq_nth.
Qed.

(** Queuing bytes touches nothing but the transmit buffer and the record
    of calls. *)
Lemma write_loop_state (values : list Z) (idx : list nat) (w : TwoWire) :
  fold_left (fun w i => write w (nth i values 0)) idx w =
  mkWire (cells w) (latch w) (txAddress w)
         (txBuffer w ++ map (fun i => uint8 (nth i values 0)) idx)
         (rxBuffer w) (txScript w) (rxScript w)
         (calls w ++ map (fun i => CallWrite (nth i values 0)) idx).
Proof.
  revert w. induction idx as [ | i idx IH]; intros w; simpl.
  - destruct w; simpl. now rewrite !app_nil_r.
  - rewrite IH. unfold write, log; simpl.
    now rewrite <- !app_assoc.
Qed.

Lemma queued_state h w framAddr items values :
  queued h w framAddr items values =
  mkWire (cells w) (latch w) (uint8 (selector h framAddr))
         (uint8 (Z.land framAddr 255)
            :: map (fun i => uint8 (nth i values 0)) (seq 0 (Z.to_nat items)))
         (rxBuffer w) (txScript w) (rxScript w)
         (calls w ++ CallBeginTransmission (selector h framAddr)
                  :: CallWrite (Z.land framAddr 255)
                  :: map (fun i => CallWrite (nth i values 0))
                         (seq 0 (Z.to_nat items))).
Proof.
  unfold queued, write_items. rewrite write_loop_state.
  unfold write, beginTransmission, log; simpl.
  now rewrite <- !app_assoc.
Qed.

Lemma writeArray_accepted iw h w framAddr items values :
  out_of_range iw framAddr items = false ->
  writeArray iw h w framAddr items values =
  endTransmission (queued h w framAddr items values).
Proof.
  intros Hin. unfold writeArray. now rewrite Hin.
Qed.

Lemma endTransmission_status w :
  fst (endTransmission w) = uint8 (hd 0 (txScript w)).
Proof.
  unfold endTransmission.
  now destruct (if uint8 (hd 0 (txScript w)) =? 0 then deliver w
                else (cells w, latch w)).
Qed.

Lemma endTransmission_calls w :
  calls (snd (endTransmission w)) =
  calls w ++ [CallEndTransmission (uint8 (hd 0 (txScript w)))].
Proof.
  unfold endTransmission.
  now destruct (if uint8 (hd 0 (txScript w)) =? 0 then deliver w
                else (cells w, latch w)).
Qed.

(** C3: an in-range [writeArray] adds exactly one transaction to the
    record of bus calls: [beginTransmission] with the selector
    [i2c_addr | ((framAddr >> 8) & 1)], the sub-address [framAddr & 0xFF],
    the data bytes in order and one [endTransmission]; the value returned
    is the status that [endTransmission] gave, whatever it is. *)
Theorem writeArray_one_transaction iw h w framAddr items values :
  0 <= framAddr -> 1 <= items <= 255 ->
  framAddr + items - 1 < MAXADDRESS_04 ->
  length values = Z.to_nat items ->
  let status := uint8 (hd 0 (txScript w)) in
  let '(result, w') := writeArray iw h w framAddr items values in
  result = status /\
  calls w' =
    calls w
    ++ [CallBeginTransmission (Z.lor (i2c_addr h) (Z.land (Z.shiftr framAddr 8) 1));
        CallWrite (Z.land framAddr 255)]
    ++ map CallWrite values
    ++ [CallEndTransmission status].
Proof.
  intros Ha Hn Hlast Hlen status.
  rewrite writeArray_accepted by (apply out_of_range_within; lia).
  destruct (endTransmission (queued h w framAddr items values))
    as [result w'] eqn:Hend.
  pose proof (endTransmission_status (queued h w framAddr items values)) as Hst.
  pose proof (endTransmission_calls (queued h w framAddr items values)) as Hcalls.
  rewrite Hend in Hst, Hcalls. simpl in Hst, Hcalls.
  rewrite queued_state in Hst, Hcalls. simpl in Hst, Hcalls.
  split; [exact Hst | ].
  rewrite Hcalls. fold status. unfold selector.
  rewrite <- Hlen, <- map_map, map_nth_seq.
  now rewrite <- !app_assoc.
Qed.

Lemma writeArray_one_transaction_witness :
  let '(result, w') := writeArray Int16 fram50 blank 300 3 [17; 34; 51] in
  result = 0 /\
  calls w' = [CallBeginTransmission 81; CallWrite 44; CallWrite 17;
              CallWrite 34; CallWrite 51; CallEndTransmission 0].
Proof.
  apply (writeArray_one_transaction Int16 fram50 blank 300 3 [17; 34; 51]);
    unfold MAXADDRESS_04; simpl; lia.
Defined.

(** ** The read transaction *)

Lemma readArray_accepted iw h w framAddr items values :
  out_of_range iw framAddr items = false -> items <> 0 ->
  readArray iw h w framAddr items values =
  let '(result, w1) :=
    endTransmission (write (beginTransmission w (selector h framAddr))
                           (Z.land framAddr 255)) in
  let '(values', w2) :=
    read_items (requestFrom w1 (i2c_addr h) (uint8 items)) items values in
  (result, values', w2).
Proof.
  intros Hin Hn. unfold readArray. rewrite Hin.
  apply Z.eqb_neq in Hn. now rewrite Hn.
Qed.

Lemma readArray_status iw h w framAddr items values :
  out_of_range iw framAddr items = false -> items <> 0 ->
  fst (fst (readArray iw h w framAddr items values)) =
  fst (endTransmission (write (beginTransmission w (selector h framAddr))
                              (Z.land framAddr 255))).
Proof.
  intros Hin Hn. rewrite readArray_accepted by assumption.
  destruct (endTransmission _) as [result w1].
  now destruct (read_items _ _ _).
Qed.

(** C5: the status of an in-range [readArray] of at least one byte is the
    status [endTransmission] gave for the address phase; whatever the read
    request does afterwards, fail or not, the status is the same. *)
Theorem readArray_status_is_address_phase iw h w framAddr items values :
  0 <= framAddr -> 1 <= items <= 255 ->
  framAddr + items - 1 < MAXADDRESS_04 ->
  fst (fst (readArray iw h w framAddr items values)) =
    fst (endTransmission (write (beginTransmission w (selector h framAddr))
                                (Z.land framAddr 255))) /\
  forall rs : list bool,
    fst (fst (readArray iw h (with_rxScript w rs) framAddr items values)) =
    fst (fst (readArray iw h w framAddr items values)).
Proof.
  intros Ha Hn Hlast.
  assert (Hin : out_of_range iw framAddr items = false)
    by (apply out_of_range_within; lia).
  assert (Hn0 : items <> 0) by lia.
  split; [now apply readArray_status | ].
  intros rs. rewrite !readArray_status by assumption.
  now rewrite !endTransmission_status.
Qed.

Lemma readArray_status_is_address_phase_witness :
  fst (fst (readArray Int16 fram50 blank 300 2 [0; 0])) =
    fst (endTransmission (write (beginTransmission blank (selector fram50 300))
                                (Z.land 300 255))) /\
  forall rs : list bool,
    fst (fst (readArray Int16 fram50 (with_rxScript blank rs) 300 2 [0; 0])) =
    fst (fst (readArray Int16 fram50 blank 300 2 [0; 0])).
Proof.
  apply (readArray_status_is_address_phase Int16 fram50 blank 300 2 [0; 0]);
    unfold MAXADDRESS_04; lia.
Defined.

(** ** The handle across calls *)

Lemma constructor_members manage this g i2c wp pin chipDensity :
  let h := fst (constructor manage this g i2c wp pin chipDensity) in
  i2c_addr h = i2c_addr this /\ wpPin h = pin.
Proof.
  unfold constructor, initWP, enableWP, disableWP.
  destruct manage, wp; simpl; split; reflexivity.
Qed.

Lemma constructor_unmanaged this g i2c wp pin chipDensity :
  constructor false this g i2c wp pin chipDensity =
  (mkFRAM (i2c_addr this) pin false, g).
Proof. reflexivity. Qed.

(** No member function other than [enableWP] and [disableWP] touches the
    handle, and those two leave [i2c_addr] and [wpPin] alone. *)
Lemma run_members iw manage c s s' :
  run iw manage c s = Some s' ->
  i2c_addr (dev s') = i2c_addr (dev s) /\ wpPin (dev s') = wpPin (dev s).
Proof.
  destruct c; simpl; try (intros [= <-]; split; reflexivity).
  - unfold enableWP. destruct manage; intros [= <-]; split; reflexivity.
  - unfold disableWP. destruct manage; intros [= <-]; split; reflexivity.
  - destruct (eraseDevice iw (dev s) (bus s)) as [[result w'] | ];
      [intros [= <-]; split; reflexivity | discriminate].
Qed.

Lemma run_unmanaged iw c s s' :
  run iw false c s = Some s' -> dev s' = dev s /\ pins s' = pins s.
Proof.
  destruct c; simpl; try (intros [= <-]; split; reflexivity).
  destruct (eraseDevice iw (dev s) (bus s)) as [[result w'] | ];
    [intros [= <-]; split; reflexivity | discriminate].
Qed.

(** C9: built with [MANAGE_WP] false, [enableWP] and [disableWP] return
    ERROR_10 and hand back the handle and the GPIO record unchanged (no
    [digitalWrite], [wpStatus] as it was), and [getWPStatus] is false in
    every state reachable from the constructor. *)
Theorem unmanaged_write_protect iw manage :
  manage = false ->
  (forall h g, enableWP manage h g = (ERROR_10, h, g) /\
               disableWP manage h g = (ERROR_10, h, g)) /\
  (forall s, reachable iw manage s -> getWPStatus (dev s) = false).
Proof.
  intros ->. split.
  - intros h g. split; reflexivity.
  - intros s Hreach. induction Hreach as [this g w i2c wp pin d h g' Hnew
                                          | s c s' Hreach IH Hrun].
    + rewrite constructor_unmanaged in Hnew. now inversion Hnew.
    + apply run_unmanaged in Hrun as [Hdev _]. simpl. now rewrite Hdev.
Qed.

Lemma unmanaged_write_protect_witness :
  (forall h g, enableWP MANAGE_WP h g = (ERROR_10, h, g) /\
               disableWP MANAGE_WP h g = (ERROR_10, h, g)) /\
  (forall s, reachable Int16 MANAGE_WP s -> getWPStatus (dev s) = false).
Proof.
  apply (unmanaged_write_protect Int16 MANAGE_WP). reflexivity.
Defined.

(** ** What the constructor keeps of its parameters *)

Lemma writeArray_accepted_calls iw h w framAddr items values :
  out_of_range iw framAddr items = false ->
  calls (snd (writeArray iw h w framAddr items values)) <> calls w.
Proof.
  intros Hin. rewrite writeArray_accepted by assumption.
  rewrite endTransmission_calls, queued_state. simpl.
  intros Heq. apply (f_equal (@length WireCall)) in Heq.
  rewrite !length_app in Heq. simpl in Heq. lia.
Qed.

Lemma read_loop_calls (idx : list nat) (values : list Z) (w : TwoWire) :
  exists added,
    calls (snd (fold_left (fun st i => let '(v, w') := read (snd st) in
                                       (store i (uint8 v) (fst st), w'))
                          idx (values, w))) = calls w ++ added.
Proof.
  revert values w. induction idx as [ | i idx IH]; intros values w; simpl.
  - exists []. now rewrite app_nil_r.
  - destruct (IH (store i (uint8 match rxBuffer w with [] => -1 | b :: _ => b end)
                        values)
                 (snd (read w))) as [added Hadded].
    exists (CallRead (match rxBuffer w with [] => -1 | b :: _ => b end) :: added).
    unfold read in Hadded |- *. simpl in Hadded |- *.
    rewrite Hadded. now rewrite <- app_assoc.
Qed.

Lemma readArray_accepted_calls iw h w framAddr items values :
  out_of_range iw framAddr items = false -> items <> 0 ->
  calls (snd (readArray iw h w framAddr items values)) <> calls w.
Proof.
  intros Hin Hn. rewrite readArray_accepted by assumption.
  destruct (endTransmission _) as [result w1] eqn:Hend.
  pose proof (endTransmission_calls
                (write (beginTransmission w (selector h framAddr))
                       (Z.land framAddr 255))) as Hcalls.
  rewrite Hend in Hcalls. simpl in Hcalls.
  unfold read_items.
  destruct (read_loop_calls (seq 0 (Z.to_nat items)) values
              (requestFrom w1 (i2c_addr h) (uint8 items))) as [added Hadded].
  destruct (fold_left _ _ _) as [values' w2]. simpl in Hadded |- *.
  rewrite Hadded.
  assert (Hreq : calls (requestFrom w1 (i2c_addr h) (uint8 items)) =
                 calls w1 ++ [CallRequestFrom (i2c_addr h) (uint8 items)]).
  { unfold requestFrom.
    destruct (if hd false (rxScript w1) then _ else _); reflexivity. }
  rewrite Hreq, Hcalls.
  intros Heq. apply (f_equal (@length WireCall)) in Heq.
  rewrite !length_app in Heq. simpl in Heq. lia.
Qed.

(** C10, as stated, fails: built in zeroed storage with selector 0x50 and
    chipDensity 256, the handle holds selector 0, not 0x50, and a write
    at address 300, beyond 256, is not refused but sent to the bus. *)
Lemma constructor_drops_selector_and_density :
  let h := fst (constructor MANAGE_WP (mkFRAM 0 0 false) [] 80 false 13 256) in
  i2c_addr h <> 80 /\
  fst (writeArray Int16 h blank 300 1 [171]) <> ERROR_11 /\
  calls (snd (writeArray Int16 h blank 300 1 [171])) =
    [CallBeginTransmission 1; CallWrite 44; CallWrite 171; CallEndTransmission 0].
Proof.
  vm_compute. repeat split; discriminate.
Qed.

(** C10, amended: whatever [chipDensity] (and the other parameters) the
    handle was constructed with, and whatever was called since, the bound
    of the address-range check is the constant 512: a request of 1 to 255
    bytes is refused with ERROR_11 and no bus call exactly when
    addr + length > 512. *)
Theorem capacity_is_MAXADDRESS_04 iw manage s framAddr items values :
  reachable iw manage s ->
  0 <= framAddr < 65536 -> 1 <= items <= 255 ->
  (writeArray iw (dev s) (bus s) framAddr items values = (ERROR_11, bus s)
     <-> 512 < framAddr + items) /\
  (readArray iw (dev s) (bus s) framAddr items values = (ERROR_11, values, bus s)
     <-> 512 < framAddr + items).
Proof.
  intros _ Ha Hn.
  destruct (Z.lt_ge_cases 512 (framAddr + items)) as [Hout | Hin].
  - unfold writeArray, readArray.
    rewrite out_of_range_beyond by (unfold MAXADDRESS_04; lia).
    split; split; auto.
  - assert (Hrange : out_of_range iw framAddr items = false)
      by (apply out_of_range_within; unfold MAXADDRESS_04; lia).
    split; split; try lia; intros Heq; exfalso.
    + apply (writeArray_accepted_calls iw (dev s) (bus s) framAddr items values Hrange).
      now rewrite Heq.
    + apply (readArray_accepted_calls iw (dev s) (bus s) framAddr items values Hrange);
        [lia | now rewrite Heq].
Qed.

Lemma capacity_is_MAXADDRESS_04_witness :
  (writeArray Int16 (mkFRAM 0 13 false) blank 300 1 [171] = (ERROR_11, blank)
     <-> 512 < 300 + 1) /\
  (readArray Int16 (mkFRAM 0 13 false) blank 300 1 [171] = (ERROR_11, [171], blank)
     <-> 512 < 300 + 1).
Proof.
  apply (capacity_is_MAXADDRESS_04 Int16 MANAGE_WP
           (mkSystem (mkFRAM 0 13 false) blank []) 300 1 [171]); try lia.
  apply (reach_constructed Int16 MANAGE_WP (mkFRAM 0 0 false) [] blank 80 false 13 256).
  reflexivity.
Defined.

(** ** Single bytes on a fault-free bus *)

Lemma writeByte_fault_free iw h w framAddr value :
  fault_free w -> out_of_range iw framAddr 1 = false ->
  writeByte iw h w framAddr value =
  (0, mkWire (set_cell (cells w) (uint8 (selector h framAddr))
                       (uint8 (Z.land framAddr 255)) (uint8 (uint8 value)))
             (snd (advance (uint8 (selector h framAddr),
                            uint8 (Z.land framAddr 255))))
             (uint8 (selector h framAddr)) [] (rxBuffer w) [] []
             (calls w ++ byte_write_calls h framAddr (uint8 value))).
Proof.
  intros [Htx Hrx] Hin. unfold writeByte.
  rewrite writeArray_accepted by assumption.
  rewrite queued_state. unfold endTransmission, deliver. simpl.
  rewrite Htx, Hrx. simpl.
  unfold log, byte_write_calls. simpl.
  now rewrite <- !app_assoc.
Qed.

Lemma readByte_fault_free iw h w junk framAddr :
  fault_free w -> out_of_range iw framAddr 1 = false ->
  exists w',
    readByte iw h w junk framAddr =
      (0, uint8 (cells w (uint8 (i2c_addr h)) (uint8 (Z.land framAddr 255))), w')
    /\ cells w' = cells w /\ fault_free w'
    /\ calls w' =
         calls w ++ [CallBeginTransmission (selector h framAddr);
                     CallWrite (Z.land framAddr 255);
                     CallEndTransmission 0;
                     CallRequestFrom (i2c_addr h) 1;
                     CallRead (cells w (uint8 (i2c_addr h))
                                       (uint8 (Z.land framAddr 255)))].
Proof.
  intros [Htx Hrx] Hin. unfold readByte.
  rewrite readArray_accepted by (assumption || discriminate).
  unfold endTransmission, deliver, requestFrom, read_items, read, log.
  simpl. rewrite Htx, Hrx. simpl.
  eexists. split; [reflexivity | ]. simpl.
  repeat split. now rewrite <- !app_assoc.
Qed.

(** Where the write selector is the handle's own selector (every address
    below 256, and every address when the selector is odd), the byte
    written is the byte read back. *)
Lemma writeByte_readByte_same_page iw h w junk framAddr value :
  fault_free w -> 0 <= framAddr < MAXADDRESS_04 -> 0 <= value < 256 ->
  selector h framAddr = i2c_addr h ->
  let '(_, w1) := writeByte iw h w framAddr value in
  fst (readByte iw h w1 junk framAddr) = (0, value).
Proof.
  intros Hff Ha Hv Hsel.
  assert (Hin : out_of_range iw framAddr 1 = false)
    by (apply out_of_range_within; unfold MAXADDRESS_04 in *; lia).
  rewrite writeByte_fault_free by assumption.
  match goal with |- fst (readByte _ _ ?w1 _ _) = _ =>
    destruct (readByte_fault_free iw h w1 junk framAddr) as (w2 & Hread & _);
      [split; reflexivity | assumption | rewrite Hread]
  end.
  simpl. unfold set_cell. rewrite Hsel, !Z.eqb_refl. simpl.
  unfold uint8. now rewrite !(Z.mod_small value) by assumption.
Qed.

(** Where the write selector differs from the handle's selector, reading
    back does not see the write: it returns what the cell of the handle's
    own page held before. *)
Lemma writeByte_readByte_other_page iw h w junk framAddr value :
  fault_free w -> 0 <= framAddr < MAXADDRESS_04 ->
  uint8 (selector h framAddr) <> uint8 (i2c_addr h) ->
  let '(_, w1) := writeByte iw h w framAddr value in
  fst (readByte iw h w1 junk framAddr) =
  (0, uint8 (cells w (uint8 (i2c_addr h)) (uint8 (Z.land framAddr 255)))).
Proof.
  intros Hff Ha Hsel.
  assert (Hin : out_of_range iw framAddr 1 = false)
    by (apply out_of_range_within; unfold MAXADDRESS_04 in *; lia).
  rewrite writeByte_fault_free by assumption.
  match goal with |- fst (readByte _ _ ?w1 _ _) = _ =>
    destruct (readByte_fault_free iw h w1 junk framAddr) as (w2 & Hread & _);
      [split; reflexivity | assumption | rewrite Hread]
  end.
  simpl. unfold set_cell.
  destruct (Z.eqb_spec (uint8 (i2c_addr h)) (uint8 (selector h framAddr)));
    [congruence | reflexivity].
Qed.

(** C2: at address 256 the round trip fails.  [writeByte(256, 0xAB)] goes
    to selector 0x51, [readByte(256)] sets the sub-address through 0x51
    but requests the byte from 0x50, the selector without address bit 8:
    it returns the 0x00 of the other page. *)
Theorem writeByte_readByte_at_256 :
  let '(status_w, w1) := writeByte Int16 fram50 blank 256 171 in
  let '(status_r, out, w2) := readByte Int16 fram50 w1 [] 256 in
  status_w = 0 /\ status_r = 0 /\ out = 0 /\ out <> 171 /\
  cells w2 81 0 = 171 /\
  calls w2 =
    [CallBeginTransmission 81; CallWrite 0; CallWrite 171; CallEndTransmission 0;
     CallBeginTransmission 81; CallWrite 0; CallEndTransmission 0;
     CallRequestFrom 80 1; CallRead 0].
Proof.
  vm_compute. repeat split; discriminate.
Qed.

(** The same with the handle the constructor builds in zeroed storage
    (selector 0): written through selector 1, read from selector 0. *)
Lemma writeByte_readByte_at_256_constructed :
  let h := fst (constructor MANAGE_WP (mkFRAM 0 0 false) [] 80 false 13 512) in
  let '(_, w1) := writeByte Int16 h blank 256 171 in
  fst (readByte Int16 h w1 [] 256) = (0, 0).
Proof. reflexivity. Qed.

(** ** Toggling a bit *)

Lemma below_in_seq (n : nat) (x : Z) :
  0 <= x < Z.of_nat n -> In (Z.to_nat x) (seq 0 n).
Proof. intros Hx. apply in_seq. lia. Qed.

Lemma toggled_is_xor b bitNb :
  0 <= b < 256 -> 0 <= bitNb <= 7 ->
  toggled b bitNb = Z.lxor b (Z.shiftl 1 bitNb) /\
  0 <= toggled b bitNb < 256 /\
  toggled (toggled b bitNb) bitNb = b.
Proof.
  intros Hb Hi.
  pose (ok := fun (x y : nat) =>
    let b := Z.of_nat x in
    let i := Z.of_nat y in
    (toggled b i =? Z.lxor b (Z.shiftl 1 i))
    && (0 <=? toggled b i) && (toggled b i <? 256)
    && (toggled (toggled b i) i =? b)).
  assert (Hall : forallb (fun x => forallb (ok x) (seq 0 8)) (seq 0 256) = true)
    by (vm_compute; reflexivity).
  rewrite forallb_forall in Hall.
  specialize (Hall (Z.to_nat b) (below_in_seq 256 b Hb)).
  rewrite forallb_forall in Hall.
  specialize (Hall (Z.to_nat bitNb) (below_in_seq 8 bitNb ltac:(lia))).
  unfold ok in Hall. rewrite !Z2Nat.id in Hall by lia.
  rewrite !andb_true_iff in Hall.
  destruct Hall as [[[Hxor Hlo] Hhi] Hback].
  apply Z.eqb_eq in Hxor, Hback. apply Z.leb_le in Hlo. apply Z.ltb_lt in Hhi.
  repeat split; assumption.
Qed.

Lemma readArray_one_fault_free iw h w junk framAddr :
  fault_free w -> out_of_range iw framAddr 1 = false ->
  exists w',
    readArray iw h w framAddr 1 (local_buffer 1 junk) =
      (0, [uint8 (cells w (uint8 (i2c_addr h)) (uint8 (Z.land framAddr 255)))], w')
    /\ cells w' = cells w /\ fault_free w'.
Proof.
  intros [Htx Hrx] Hin.
  rewrite readArray_accepted by (assumption || discriminate).
  unfold endTransmission, deliver, requestFrom, read_items, read, log.
  simpl. rewrite Htx, Hrx. simpl.
  eexists. split; [reflexivity | ]. simpl.
  repeat split.
Qed.

(** On a fault-free bus [toggleBit] reads the cell of the handle's own
    page and writes the toggled byte to the cell of the page that the
    address selects. *)
Lemma toggleBit_fault_free iw h w junk framAddr bitNb :
  fault_free w -> 0 <= framAddr < MAXADDRESS_04 -> bitNb <= 7 ->
  let b := uint8 (cells w (uint8 (i2c_addr h)) (uint8 (Z.land framAddr 255))) in
  let '(status, w') := toggleBit iw h w junk framAddr bitNb in
  status = 0 /\ fault_free w' /\
  cells w' = set_cell (cells w) (uint8 (selector h framAddr))
                      (uint8 (Z.land framAddr 255)) (uint8 (toggled b bitNb)).
Proof.
  intros Hff Ha Hbit b.
  assert (Hin : out_of_range iw framAddr 1 = false)
    by (apply out_of_range_within; unfold MAXADDRESS_04 in *; lia).
  unfold toggleBit.
  destruct (Z.ltb_spec 7 bitNb) as [Hgt | _]; [lia | ].
  destruct (readArray_one_fault_free iw h w junk framAddr Hff Hin)
    as (w1 & Hread & Hcells & [Htx Hrx]).
  rewrite Hread. simpl nth. fold b.
  rewrite writeArray_accepted by assumption.
  rewrite queued_state. unfold endTransmission, deliver. simpl.
  rewrite Htx, Hrx. simpl. rewrite Hcells.
  unfold toggled.
  destruct (Z.land b (Z.shiftl 1 bitNb) =? Z.shiftl 1 bitNb); simpl;
    repeat split.
Qed.

(** Below address 256 (or with an odd selector) the bit is flipped in
    place, and a second toggle restores the byte. *)
Lemma toggleBit_same_page iw h w junk junk' framAddr bitNb :
  fault_free w -> 0 <= framAddr < MAXADDRESS_04 -> 0 <= bitNb <= 7 ->
  0 <= i2c_addr h < 256 -> selector h framAddr = i2c_addr h ->
  let b := cells w (i2c_addr h) (Z.land framAddr 255) in
  0 <= b < 256 ->
  let '(_, w1) := toggleBit iw h w junk framAddr bitNb in
  let '(_, w2) := toggleBit iw h w1 junk' framAddr bitNb in
  cells w1 (i2c_addr h) (Z.land framAddr 255) = Z.lxor b (Z.shiftl 1 bitNb) /\
  cells w2 (i2c_addr h) (Z.land framAddr 255) = b.
Proof.
  intros Hff Ha Hbit Hsel8 Hsel b Hb.
  assert (Hoff : uint8 (Z.land framAddr 255) = Z.land framAddr 255).
  { unfold uint8. apply Z.mod_small. change 255 with (Z.ones 8).
    rewrite Z.land_ones by lia. apply Z.mod_pos_bound. lia. }
  assert (Hown : uint8 (i2c_addr h) = i2c_addr h)
    by (unfold uint8; now apply Z.mod_small).
  pose proof (toggleBit_fault_free iw h w junk framAddr bitNb Hff Ha
                ltac:(lia)) as H1.
  destruct (toggleBit iw h w junk framAddr bitNb) as [st1 w1].
  destruct H1 as (_ & Hff1 & Hc1).
  pose proof (toggleBit_fault_free iw h w1 junk' framAddr bitNb Hff1 Ha
                ltac:(lia)) as H2.
  destruct (toggleBit iw h w1 junk' framAddr bitNb) as [st2 w2].
  destruct H2 as (_ & _ & Hc2).
  destruct (toggled_is_xor b bitNb Hb Hbit) as (Hxor & Hrange & Hback).
  assert (Hb8 : uint8 b = b) by (unfold uint8; now apply Z.mod_small).
  assert (Ht8 : uint8 (toggled b bitNb) = toggled b bitNb)
    by (unfold uint8; now apply Z.mod_small).
  rewrite Hsel, Hown, Hoff in Hc1. fold b in Hc1. rewrite Hb8, Ht8 in Hc1.
  assert (Hcell1 : cells w1 (i2c_addr h) (Z.land framAddr 255) = toggled b bitNb)
    by (rewrite Hc1; unfold set_cell; now rewrite !Z.eqb_refl).
  rewrite Hsel, Hown, Hoff, Hcell1, Ht8, Hback, Hb8 in Hc2.
  split.
  - now rewrite Hcell1.
  - rewrite Hc2. unfold set_cell. now rewrite !Z.eqb_refl.
Qed.

(** C8: at address 256 [toggleBit] does not toggle the byte in place.
    The byte at 256 (page 0x51, offset 0) holds 0xF0; [toggleBit(256, 0)]
    reads the 0x00 of page 0x50 instead, sets bit 0 of that and stores
    0x01 at 256: the other seven bits are lost, and a second toggle stores
    0x01 again instead of restoring the original 0xF0. *)
Theorem toggleBit_at_256 :
  let '(status1, w1) := toggleBit Int16 fram50 page1_F0 [] 256 0 in
  let '(status2, w2) := toggleBit Int16 fram50 w1 [] 256 0 in
  cells page1_F0 81 0 = 240 /\
  status1 = 0 /\ cells w1 81 0 = 1 /\ cells w1 81 0 <> 241 /\
  status2 = 0 /\ cells w2 81 0 = 1 /\ cells w2 81 0 <> 240 /\
  calls w1 =
    [CallBeginTransmission 81; CallWrite 0; CallEndTransmission 0;
     CallRequestFrom 80 1; CallRead 0;
     CallBeginTransmission 81; CallWrite 0; CallWrite 1; CallEndTransmission 0].
Proof.
  vm_compute. repeat split; discriminate.
Qed.

(** ** Whole-device erase *)

Lemma eraseDevice_loop_stops fuel iw h w i result :
  result <> 0 -> eraseDevice_loop fuel iw h w i result = Some (result, w).
Proof.
  intros Hres. apply Z.eqb_neq in Hres.
  destruct fuel; simpl; rewrite Hres, andb_false_r; reflexivity.
Qed.

(** With fuel for every remaining address the loop is the in-order erase
    of the addresses from [i] up. *)
Lemma eraseDevice_loop_in_order iw h (n : nat) :
  forall (fuel : nat) (i : Z) (w : TwoWire),
    (n <= fuel)%nat -> i = MAXADDRESS_04 - Z.of_nat n -> 0 <= i ->
    eraseDevice_loop fuel iw h w i 0 =
    Some (erase_in_order iw h (map Z.of_nat (seq (Z.to_nat i) n)) w).
Proof.
  unfold MAXADDRESS_04.
  induction n as [ | n IH]; intros fuel i w Hfuel Hi Hpos.
  - assert (i = 512) by lia. subst i.
    destruct fuel; reflexivity.
  - destruct fuel as [ | fuel]; [lia | ].
    cbn [eraseDevice_loop seq map erase_in_order].
    unfold MAXADDRESS_04.
    destruct (Z.ltb_spec i 512) as [Hlt | Hge]; [ | lia].
    cbn [andb Z.eqb]. rewrite Z2Nat.id by lia.
    destruct (writeByte iw h w i 0) as [status w'].
    destruct (Z.eqb_spec status 0) as [-> | Hfail].
    + assert (Hnext : uint16 (i + 1) = i + 1)
        by (unfold uint16; apply Z.mod_small; lia).
      rewrite Hnext, (IH fuel (i + 1) w') by lia.
      now replace (Z.to_nat (i + 1)) with (S (Z.to_nat i)) by lia.
    + now apply eraseDevice_loop_stops.
Qed.

Lemma in_addresses (n : nat) (a : Z) :
  In a (addresses n) <-> 0 <= a < Z.of_nat n.
Proof.
  unfold addresses. rewrite in_map_iff. split.
  - intros (k & <- & Hk). apply in_seq in Hk. lia.
  - intros Ha. exists (Z.to_nat a). split; [lia | apply in_seq; lia].
Qed.

(** On a fault-free bus the in-order erase runs to the end: status 0, one
    write transaction per address, and every cell it addressed is zero
    afterwards (as is every cell that was zero before). *)
Lemma erase_in_order_fault_free iw h (addrs : list Z) :
  forall w,
    fault_free w ->
    (forall a, In a addrs -> 0 <= a < MAXADDRESS_04) ->
    exists w',
      erase_in_order iw h addrs w = (0, w') /\
      fault_free w' /\
      calls w' = calls w ++ flat_map (fun a => byte_write_calls h a 0) addrs /\
      forall sel off,
        cells w sel off = 0 \/
        (exists a, In a addrs /\ sel = uint8 (selector h a)
                   /\ off = uint8 (Z.land a 255)) ->
        cells w' sel off = 0.
Proof.
  induction addrs as [ | a addrs IH]; intros w Hff Hrange.
  - exists w. repeat split; try apply Hff.
    + now rewrite app_nil_r.
    + intros sel off [Hzero | (a & [] & _)]. exact Hzero.
  - cbn [erase_in_order].
    assert (Ha : 0 <= a < MAXADDRESS_04) by (apply Hrange; now left).
    rewrite writeByte_fault_free
      by (try assumption; apply out_of_range_within; unfold MAXADDRESS_04 in *; lia).
    cbn [Z.eqb].
    match goal with |- context [erase_in_order iw h addrs ?w1] =>
      destruct (IH w1) as (w' & Hrun & Hff' & Hcalls & Hcells);
        [split; reflexivity | intros a' Hin; apply Hrange; now right | ]
    end.
    exists w'. split; [exact Hrun | ]. split; [exact Hff' | ]. split.
    + rewrite Hcalls. cbn [calls flat_map]. now rewrite <- app_assoc.
    + intros sel off Hcase. apply Hcells. cbn [cells]. unfold set_cell.
      destruct ((sel =? uint8 (selector h a)) && (off =? uint8 (Z.land a 255)))
        eqn:Hhit; [now left | ].
      destruct Hcase as [Hzero | (a' & [-> | Hin] & -> & ->)].
      * now left.
      * rewrite !Z.eqb_refl in Hhit. discriminate.
      * right. exists a'. repeat split; assumption.
Qed.

(** C6: [eraseDevice] is the in-order erase of the addresses 0 .. 511
    (a single-byte write of 0x00 each, stopping at and returning the first
    nonzero status) and always returns.  On a fault-free bus it returns 0,
    the calls it adds are exactly the 512 write transactions in address
    order, and afterwards the cell of every address holds 0x00 and
    [readByte] at every address returns status 0 and the byte 0x00. *)
Theorem eraseDevice_erases iw h w :
  eraseDevice iw h w =
    Some (erase_in_order iw h (addresses (Z.to_nat MAXADDRESS_04)) w) /\
  (fault_free w ->
   exists w',
     eraseDevice iw h w = Some (0, w') /\
     calls w' = calls w ++ flat_map (fun a => byte_write_calls h a 0)
                                    (addresses (Z.to_nat MAXADDRESS_04)) /\
     length (addresses (Z.to_nat MAXADDRESS_04)) = 512%nat /\
     forall a junk,
       0 <= a < MAXADDRESS_04 ->
       cells w' (uint8 (selector h a)) (uint8 (Z.land a 255)) = 0 /\
       fst (readByte iw h w' junk a) = (0, 0)).
Proof.
  assert (Hrun : eraseDevice iw h w =
            Some (erase_in_order iw h (addresses (Z.to_nat MAXADDRESS_04)) w)).
  { unfold eraseDevice, addresses.
    now rewrite (eraseDevice_loop_in_order iw h (Z.to_nat MAXADDRESS_04))
      by (unfold MAXADDRESS_04; lia). }
  split; [exact Hrun | ].
  intros Hff.
  destruct (erase_in_order_fault_free iw h (addresses (Z.to_nat MAXADDRESS_04))
              w Hff) as (w' & Herase & Hff' & Hcalls & Hcells).
  { intros a Ha. apply in_addresses in Ha. unfold MAXADDRESS_04 in *. lia. }
  exists w'. rewrite Hrun, Herase.
  split; [reflexivity | ]. split; [exact Hcalls | ].
  split; [unfold addresses; now rewrite length_map, length_seq | ].
  intros a junk Ha.
  assert (Hin : forall b, 0 <= b < MAXADDRESS_04 ->
                          In b (addresses (Z.to_nat MAXADDRESS_04)))
    by (intros b Hb; apply in_addresses; unfold MAXADDRESS_04 in *; lia).
  split.
  - apply Hcells. right. exists a. repeat split. now apply Hin.
  - destruct (readByte_fault_free iw h w' junk a Hff') as (w2 & Hread & _).
    { apply out_of_range_within; unfold MAXADDRESS_04 in *; lia. }
    rewrite Hread. cbn [fst].
    assert (Hlow : 0 <= Z.land a 255 < 256).
    { change 255 with (Z.ones 8). rewrite Z.land_ones by lia.
      apply Z.mod_pos_bound. lia. }
    rewrite (Hcells (uint8 (i2c_addr h)) (uint8 (Z.land a 255))); [reflexivity | ].
    right. exists (Z.land a 255). split; [ | split].
    + apply Hin. unfold MAXADDRESS_04. lia.
    + unfold selector. rewrite Z.shiftr_div_pow2 by lia.
      rewrite Z.div_small by (change (2 ^ 8) with 256; lia).
      now rewrite Z.land_0_l, Z.lor_0_r.
    + f_equal. change 255 with (Z.ones 8).
      rewrite !Z.land_ones by lia. now rewrite Z.mod_mod by lia.
Qed.

Lemma eraseDevice_erases_witness :
  eraseDevice Int16 fram50 page1_F0 =
    Some (erase_in_order Int16 fram50 (addresses (Z.to_nat MAXADDRESS_04)) page1_F0) /\
  exists w',
    eraseDevice Int16 fram50 page1_F0 = Some (0, w') /\
    calls w' = calls page1_F0
               ++ flat_map (fun a => byte_write_calls fram50 a 0)
                           (addresses (Z.to_nat MAXADDRESS_04)) /\
    length (addresses (Z.to_nat MAXADDRESS_04)) = 512%nat /\
    forall a junk,
      0 <= a < MAXADDRESS_04 ->
      cells w' (uint8 (selector fram50 a)) (uint8 (Z.land a 255)) = 0 /\
      fst (readByte Int16 fram50 w' junk a) = (0, 0).
Proof.
  destruct (eraseDevice_erases Int16 fram50 page1_F0) as [Hrun Hclean].
  split; [exact Hrun | ].
  apply Hclean. split; reflexivity.
Defined.

(** * Further properties of the driver *)

(** ** Bytes and selectors *)

Lemma low_byte_range a : 0 <= Z.land a 255 < 256.
Proof.
  change 255 with (Z.ones 8). rewrite Z.land_ones by lia.
  apply Z.mod_pos_bound. lia.
Qed.

Lemma uint8_small x : 0 <= x < 256 -> uint8 x = x.
Proof. intros Hx. unfold uint8. now apply Z.mod_small. Qed.

Lemma uint8_range x : 0 <= uint8 x < 256.
Proof. unfold uint8. apply Z.mod_pos_bound. lia. Qed.

Lemma low_byte_small a : 0 <= a < 256 -> Z.land a 255 = a.
Proof.
  intros Ha. change 255 with (Z.ones 8). rewrite Z.land_ones by lia.
  apply Z.mod_small. change (2 ^ 8) with 256. lia.
Qed.

(** Below address 256 the address bit folded into the selector is 0. *)
Lemma selector_low_page h a : 0 <= a < 256 -> selector h a = i2c_addr h.
Proof.
  intros Ha. unfold selector. rewrite Z.shiftr_div_pow2 by lia.
  rewrite Z.div_small by (change (2 ^ 8) with 256; lia).
  now rewrite Z.land_0_l, Z.lor_0_r.
Qed.

Lemma in_range_one iw a :
  0 <= a < MAXADDRESS_04 -> out_of_range iw a 1 = false.
Proof.
  intros Ha. apply out_of_range_within; unfold MAXADDRESS_04 in *; lia.
Qed.

Lemma beyond_range_one iw a :
  MAXADDRESS_04 <= a < 65536 -> out_of_range iw a 1 = true.
Proof.
  intros Ha. apply out_of_range_beyond; unfold MAXADDRESS_04 in *; lia.
Qed.

(** ** The state after an accepted write *)

Lemma writeArray_state iw h w framAddr items values :
  out_of_range iw framAddr items = false ->
  let status := uint8 (hd 0 (txScript w)) in
  let data := map (fun i => uint8 (nth i values 0)) (seq 0 (Z.to_nat items)) in
  let stored :=
    store_bytes (cells w)
                (uint8 (selector h framAddr), uint8 (Z.land framAddr 255)) data in
  writeArray iw h w framAddr items values =
  (status,
   mkWire (if status =? 0 then fst stored else cells w)
          (if status =? 0 then snd (snd stored) else latch w)
          (uint8 (selector h framAddr)) [] (rxBuffer w)
          (tl (txScript w)) (rxScript w)
          (calls w ++ CallBeginTransmission (selector h framAddr)
                   :: CallWrite (Z.land framAddr 255)
                   :: map (fun i => CallWrite (nth i values 0))
                          (seq 0 (Z.to_nat items))
                   ++ [CallEndTransmission status])).
Proof.
  intros Hin status data stored.
  rewrite writeArray_accepted by assumption.
  rewrite queued_state. unfold endTransmission, deliver, log. simpl.
  fold status. fold data. fold stored.
  destruct stored as [c pos].
  destruct (status =? 0); simpl; now rewrite <- !app_assoc.
Qed.

(** ** The read loop *)

Lemma store_at_end (pre : list Z) (v o : Z) (rest : list Z) :
  store (length pre) v (pre ++ o :: rest) = pre ++ v :: rest.
Proof.
  induction pre as [ | x pre IH]; simpl; [reflexivity | now rewrite IH].
Qed.

Lemma reads_of_step (rx : list Z) (n : nat) :
  reads_of rx (S n) = nth 0 rx (-1) :: reads_of (tl rx) n.
Proof.
  unfold reads_of. cbn [seq map]. f_equal.
  rewrite <- seq_shift, map_map.
  apply map_ext. intros i. destruct rx; [destruct i | ]; reflexivity.
Qed.

Lemma length_reads_of rx n : length (reads_of rx n) = n.
Proof. unfold reads_of. now rewrite length_map, length_seq. Qed.

Lemma read_loop_state (n : nat) :
  forall (k : nat) (pre old : list Z) (w : TwoWire),
    length pre = k -> length old = n ->
    fold_left (fun st i => let '(v, w') := read (snd st) in
                           (store i (uint8 v) (fst st), w'))
              (seq k n) (pre ++ old, w) =
    (pre ++ map uint8 (reads_of (rxBuffer w) n),
     mkWire (cells w) (latch w) (txAddress w) (txBuffer w)
            (skipn n (rxBuffer w)) (txScript w) (rxScript w)
            (calls w ++ map CallRead (reads_of (rxBuffer w) n))).
Proof.
  set (body := fun (st : list Z * TwoWire) (i : nat) =>
                 let '(v, w') := read (snd st) in
                 (store i (uint8 v) (fst st), w')).
  induction n as [ | n IH]; intros k pre old w Hpre Hold.
  - destruct old; [ | discriminate]. destruct w. simpl.
    now rewrite !app_nil_r.
  - destruct old as [ | o old]; [discriminate | ].
    cbn [seq fold_left].
    assert (Hbody : body (pre ++ o :: old, w) k =
              ((pre ++ [uint8 (nth 0 (rxBuffer w) (-1))]) ++ old,
               snd (read w))).
    { unfold body, read. cbn [snd fst]. rewrite <- Hpre, store_at_end.
      rewrite <- app_assoc. now destruct (rxBuffer w). }
    rewrite Hbody.
    rewrite IH by (rewrite ?length_app; simpl in *; lia).
    unfold read, log.
    cbn [snd cells latch txAddress txBuffer rxBuffer txScript rxScript calls].
    rewrite reads_of_step. cbn [map].
    rewrite <- !app_assoc. cbn [app].
    assert (Hskip : skipn n (tl (rxBuffer w)) = skipn (S n) (rxBuffer w))
      by (destruct (rxBuffer w); [now rewrite skipn_nil | reflexivity]).
    rewrite Hskip.
    now destruct (rxBuffer w).
Qed.

(** ** The state after an accepted read *)

Lemma readArray_state iw h w framAddr items values :
  out_of_range iw framAddr items = false -> items <> 0 ->
  length values = Z.to_nat items ->
  let status := uint8 (hd 0 (txScript w)) in
  let l1 := if status =? 0 then uint8 (Z.land framAddr 255) else latch w in
  let fetched :=
    fetch_bytes (cells w) (uint8 (i2c_addr h), l1) (Z.to_nat (uint8 items)) in
  let rx := if hd false (rxScript w) then [] else fst fetched in
  let got := reads_of rx (Z.to_nat items) in
  readArray iw h w framAddr items values =
  (status, map uint8 got,
   mkWire (cells w)
          (if hd false (rxScript w) then l1 else snd (snd fetched))
          (uint8 (selector h framAddr)) []
          (skipn (Z.to_nat items) rx)
          (tl (txScript w)) (tl (rxScript w))
          (calls w ++ [CallBeginTransmission (selector h framAddr);
                       CallWrite (Z.land framAddr 255);
                       CallEndTransmission status;
                       CallRequestFrom (i2c_addr h) (uint8 items)]
                   ++ map CallRead got)).
Proof.
  intros Hin Hn Hlen status l1 fetched rx got.
  rewrite readArray_accepted by assumption.
  unfold endTransmission, deliver, write, beginTransmission, log.
  cbn [cells latch txAddress txBuffer rxBuffer txScript rxScript calls
       app store_bytes fst snd].
  fold status.
  assert (Hstate :
    (let '(c, l) := if status =? 0
                    then (cells w, uint8 (Z.land framAddr 255))
                    else (cells w, latch w) in
     (status,
      mkWire c l (uint8 (selector h framAddr)) [] (rxBuffer w)
             (tl (txScript w)) (rxScript w)
             (((calls w ++ [CallBeginTransmission (selector h framAddr)])
                 ++ [CallWrite (Z.land framAddr 255)])
                 ++ [CallEndTransmission status]))) =
    (status,
     mkWire (cells w) l1 (uint8 (selector h framAddr)) [] (rxBuffer w)
            (tl (txScript w)) (rxScript w)
            (calls w ++ [CallBeginTransmission (selector h framAddr);
                         CallWrite (Z.land framAddr 255);
                         CallEndTransmission status]))).
  { unfold l1. destruct (status =? 0); now rewrite <- !app_assoc. }
  rewrite Hstate. clear Hstate.
  unfold requestFrom, log.
  cbn [cells latch txAddress txBuffer rxBuffer txScript rxScript calls].
  fold fetched.
  assert (Hreq :
    (let '(rx0, l) := if hd false (rxScript w) then ([], l1)
                      else let '(bytes, pos) := fetched in (bytes, snd pos) in
     mkWire (cells w) l (uint8 (selector h framAddr)) [] rx0
            (tl (txScript w)) (tl (rxScript w))
            ((calls w ++ [CallBeginTransmission (selector h framAddr);
                          CallWrite (Z.land framAddr 255);
                          CallEndTransmission status])
               ++ [CallRequestFrom (i2c_addr h) (uint8 items)])) =
    mkWire (cells w) (if hd false (rxScript w) then l1 else snd (snd fetched))
           (uint8 (selector h framAddr)) [] rx
           (tl (txScript w)) (tl (rxScript w))
           (calls w ++ [CallBeginTransmission (selector h framAddr);
                        CallWrite (Z.land framAddr 255);
                        CallEndTransmission status;
                        CallRequestFrom (i2c_addr h) (uint8 items)])).
  { unfold rx. destruct fetched as [bytes pos].
    destruct (hd false (rxScript w)); now rewrite <- !app_assoc. }
  rewrite Hreq. clear Hreq.
  unfold read_items.
  rewrite (read_loop_state (Z.to_nat items) 0 [] values) by (reflexivity || assumption).
  cbn [cells latch txAddress txBuffer rxBuffer txScript rxScript calls app].
  fold got. now rewrite <- !app_assoc.
Qed.

Lemma fetch_bytes_length c (n : nat) :
  forall pos, length (fst (fetch_bytes c pos n)) = n.
Proof.
  induction n as [ | n IH]; intros pos; cbn [fetch_bytes]; [reflexivity | ].
  specialize (IH (advance pos)).
  destruct (fetch_bytes c (advance pos) n). simpl in *. now rewrite IH.
Qed.

Lemma reads_of_all (rx : list Z) : reads_of rx (length rx) = rx.
Proof.
  unfold reads_of. apply nth_ext with (d := -1) (d' := -1).
  - now rewrite length_map, length_seq.
  - intros n Hn. rewrite length_map, length_seq in Hn.
    rewrite (nth_indep _ (-1) (nth 0%nat rx (-1)))
      by now rewrite length_map, length_seq.
    rewrite (map_nth (fun i => nth i rx (-1)) (seq 0 (length rx)) 0%nat n).
    now rewrite seq_nth.
Qed.

Lemma reads_of_nothing (n : nat) : reads_of [] n = repeat (-1) n.
Proof.
  induction n as [ | n IH]; [reflexivity | ].
  rewrite reads_of_step. cbn [tl nth repeat]. now rewrite IH.
Qed.

(** ** Cells written and fetched without leaving the page *)

Lemma store_bytes_elsewhere (data : list Z) :
  forall c sel off s o,
    0 <= off -> off + Z.of_nat (length data) <= 256 ->
    s <> sel \/ o < off \/ off + Z.of_nat (length data) <= o ->
    fst (store_bytes c (sel, off) data) s o = c s o.
Proof.
  induction data as [ | d data IH]; intros c sel off s o Hoff Hfit Hout;
    cbn [store_bytes fst snd]; [reflexivity | ].
  cbn [length] in Hfit, Hout. unfold advance.
  destruct data as [ | d' data].
  - destruct (off =? 255); cbn [store_bytes fst]; unfold set_cell;
      destruct (Z.eqb_spec s sel), (Z.eqb_spec o off); simpl; try reflexivity; lia.
  - cbn [length] in Hfit, Hout, IH.
    destruct (Z.eqb_spec off 255) as [-> | Hnot]; [lia | ].
    rewrite IH by (cbn [length]; lia).
    unfold set_cell.
    destruct (Z.eqb_spec s sel), (Z.eqb_spec o off); simpl; try reflexivity; lia.
Qed.

Lemma fetch_stored (data : list Z) :
  forall c sel off,
    0 <= off -> off + Z.of_nat (length data) <= 256 ->
    fst (fetch_bytes (fst (store_bytes c (sel, off) data)) (sel, off)
                     (length data)) = data.
Proof.
  induction data as [ | d data IH]; intros c sel off Hoff Hfit;
    [reflexivity | ].
  destruct data as [ | d' data].
  - cbn [length fetch_bytes store_bytes fst snd]. unfold set_cell.
    now rewrite !Z.eqb_refl.
  - cbn [length] in Hfit.
    assert (Hadv : advance (sel, off) = (sel, off + 1)).
    { unfold advance. destruct (Z.eqb_spec off 255); [lia | reflexivity]. }
    change (store_bytes c (sel, off) (d :: d' :: data))
      with (store_bytes (set_cell c sel off d) (advance (sel, off)) (d' :: data)).
    rewrite Hadv.
    specialize (IH (set_cell c sel off d) sel (off + 1)
                   ltac:(lia) ltac:(cbn [length]; lia)).
    pose proof (store_bytes_elsewhere (d' :: data) (set_cell c sel off d)
                  sel (off + 1) sel off ltac:(lia) ltac:(cbn [length]; lia)
                  ltac:(lia)) as Hhead.
    set (c' := fst (store_bytes (set_cell c sel off d) (sel, off + 1) (d' :: data)))
      in *.
    change (fetch_bytes c' (sel, off) (length (d :: d' :: data)))
      with (let '(rest, pos') :=
              fetch_bytes c' (advance (sel, off)) (length (d' :: data)) in
            (c' sel off :: rest, pos')).
    rewrite Hadv.
    destruct (fetch_bytes c' (sel, off + 1) (length (d' :: data)))
      as [rest pos'].
    cbn [fst] in IH |- *.
    rewrite Hhead, IH. unfold set_cell. now rewrite !Z.eqb_refl.
Qed.

Lemma queued_bytes (values : list Z) :
  Forall (fun b => 0 <= b < 256) values ->
  map (fun i => uint8 (nth i values 0)) (seq 0 (length values)) = values.
Proof.
  intros Hbytes. rewrite <- (map_nth_seq values) at 2.
  apply map_ext_in. intros i Hi. apply in_seq in Hi.
  apply uint8_small. rewrite Forall_forall in Hbytes.
  apply Hbytes, nth_In. lia.
Qed.

Lemma map_uint8_bytes (values : list Z) :
  Forall (fun b => 0 <= b < 256) values -> map uint8 values = values.
Proof.
  intros Hbytes. rewrite <- (map_id values) at 2.
  apply map_ext_in. intros b Hb. rewrite Forall_forall in Hbytes.
  now apply uint8_small, Hbytes.
Qed.

(** Bytes written inside the first 256 addresses are the bytes an array
    read of the same place returns, on a fault-free bus. *)
Lemma writeArray_readArray_low_page iw h w framAddr items values buffer :
  fault_free w -> 0 <= framAddr -> 1 <= items <= 255 ->
  framAddr + items <= 256 ->
  length values = Z.to_nat items -> length buffer = Z.to_nat items ->
  Forall (fun b => 0 <= b < 256) values ->
  fst (writeArray iw h w framAddr items values) = 0 /\
  fst (readArray iw h (snd (writeArray iw h w framAddr items values))
                 framAddr items buffer) = (0, values).
Proof.
  intros [Htx Hrx] Ha Hn Hfit Hlen Hbuf Hbytes.
  assert (Hin : out_of_range iw framAddr items = false)
    by (apply out_of_range_within; unfold MAXADDRESS_04; lia).
  pose proof (writeArray_state iw h w framAddr items values Hin) as Hw.
  cbv zeta in Hw. rewrite Htx, Hrx in Hw. cbn [hd tl] in Hw.
  change (uint8 0 =? 0) with true in Hw. cbv iota in Hw.
  rewrite Hw. cbn [fst snd]. split; [reflexivity | ].
  match goal with |- fst (readArray _ _ ?w1 _ _ _) = _ =>
    pose proof (readArray_state iw h w1 framAddr items buffer Hin
                  ltac:(lia) Hbuf) as Hr
  end.
  cbv zeta in Hr. cbn [cells latch txScript rxScript hd tl] in Hr.
  change (uint8 0 =? 0) with true in Hr. cbv iota in Hr.
  rewrite Hr. cbn [fst]. f_equal.
  rewrite (uint8_small items) by lia.
  rewrite (selector_low_page h framAddr) by lia.
  rewrite <- Hlen, (queued_bytes values Hbytes).
  rewrite fetch_stored
    by (pose proof (low_byte_range framAddr); pose proof (uint8_range (Z.land framAddr 255));
        rewrite ?(uint8_small (Z.land framAddr 255)), ?(low_byte_small framAddr) by lia;
        lia).
  rewrite reads_of_all. now apply map_uint8_bytes.
Qed.

(** ** Words and long words *)

Lemma bytes_of_step (n : nat) (value : Z) :
  bytes_of (S n) value = Z.land value 255 :: bytes_of n (Z.shiftr value 8).
Proof.
  unfold bytes_of. cbn [seq map]. f_equal.
  rewrite <- seq_shift, map_map. apply map_ext. intros i.
  rewrite Z.shiftr_shiftr by lia. do 2 f_equal. lia.
Qed.

Lemma length_bytes_of n value : length (bytes_of n value) = n.
Proof. unfold bytes_of. now rewrite length_map, length_seq. Qed.

Lemma bytes_of_bytes n value : Forall (fun b => 0 <= b < 256) (bytes_of n value).
Proof.
  unfold bytes_of. apply Forall_forall. intros b Hb.
  apply in_map_iff in Hb as (i & <- & _). apply low_byte_range.
Qed.

(** Reassembling the bytes of a value gives the value back, modulo the
    width. *)
Lemma value_of_bytes_of (n : nat) :
  forall value, value_of (bytes_of n value) = value mod 2 ^ (8 * Z.of_nat n).
Proof.
  induction n as [ | n IH]; intros value.
  - cbn. now rewrite Z.mod_1_r.
  - rewrite bytes_of_step. cbn [value_of fold_right].
    fold (value_of (bytes_of n (Z.shiftr value 8))). rewrite IH.
    replace (8 * Z.of_nat (S n)) with (8 + 8 * Z.of_nat n) by lia.
    rewrite Z.pow_add_r by lia. change (2 ^ 8) with 256.
    rewrite Z.rem_mul_r by lia.
    rewrite Z.shiftr_div_pow2 by lia. change (2 ^ 8) with 256.
    change 255 with (Z.ones 8). rewrite Z.land_ones by lia.
    reflexivity.
Qed.

(** X1: a 16-bit value written with [writeWord] at an address whose two
    bytes lie below 256 is the value [readWord] returns from the same
    address, on a fault-free bus; both report status 0. *)
Theorem writeWord_readWord_low_page iw h w junk framAddr value :
  fault_free w -> 0 <= framAddr -> framAddr + 2 <= 256 ->
  fst (writeWord iw h w framAddr value) = 0 /\
  fst (readWord iw h (snd (writeWord iw h w framAddr value)) junk framAddr) =
    (0, uint16 value).
Proof.
  intros Hff Ha Hfit. unfold writeWord, readWord.
  destruct (writeArray_readArray_low_page iw h w framAddr 2
              (bytes_of 2 (uint16 value)) (local_buffer 2 junk) Hff Ha
              ltac:(lia) Hfit eq_refl eq_refl (bytes_of_bytes 2 _))
    as [Hwrite Hread].
  split; [exact Hwrite | ].
  destruct (readArray _ _ _ _ _ _) as [[result buffer] w2].
  cbn [fst] in Hread |- *. inversion Hread; subst.
  rewrite (value_of_bytes_of 2). f_equal.
  unfold uint16. now rewrite Z.mod_mod.
Qed.

Lemma writeWord_readWord_low_page_witness :
  fst (writeWord Int16 fram50 blank 254 4660) = 0 /\
  fst (readWord Int16 fram50 (snd (writeWord Int16 fram50 blank 254 4660))
                [] 254) = (0, uint16 4660).
Proof.
  apply (writeWord_readWord_low_page Int16 fram50 blank [] 254 4660);
    [split; reflexivity | lia | lia].
Defined.

(** X2: a 32-bit value written with [writeLong] at an address whose four
    bytes lie below 256 is the value [readLong] returns from the same
    address, on a fault-free bus; both report status 0. *)
Theorem writeLong_readLong_low_page iw h w junk framAddr value :
  fault_free w -> 0 <= framAddr -> framAddr + 4 <= 256 ->
  fst (writeLong iw h w framAddr value) = 0 /\
  fst (readLong iw h (snd (writeLong iw h w framAddr value)) junk framAddr) =
    (0, uint32 value).
Proof.
  intros Hff Ha Hfit. unfold writeLong, readLong.
  destruct (writeArray_readArray_low_page iw h w framAddr 4
              (bytes_of 4 (uint32 value)) (local_buffer 4 junk) Hff Ha
              ltac:(lia) Hfit eq_refl eq_refl (bytes_of_bytes 4 _))
    as [Hwrite Hread].
  split; [exact Hwrite | ].
  destruct (readArray _ _ _ _ _ _) as [[result buffer] w2].
  cbn [fst] in Hread |- *. inversion Hread; subst.
  rewrite (value_of_bytes_of 4). f_equal.
  unfold uint32. now rewrite Z.mod_mod.
Qed.

Lemma writeLong_readLong_low_page_witness :
  fst (writeLong Int16 fram50 blank 252 3735928559) = 0 /\
  fst (readLong Int16 fram50 (snd (writeLong Int16 fram50 blank 252 3735928559))
                [] 252) = (0, uint32 3735928559).
Proof.
  apply (writeLong_readLong_low_page Int16 fram50 blank [] 252 3735928559);
    [split; reflexivity | lia | lia].
Defined.

(** ** Single bytes *)

(** X3: a byte written with [writeByte] below address 256 is the byte
    [readByte] returns from the same address, on a fault-free bus; both
    report status 0. *)
Theorem writeByte_readByte_low_page iw h w junk framAddr value :
  fault_free w -> 0 <= framAddr < 256 ->
  fst (writeByte iw h w framAddr value) = 0 /\
  fst (readByte iw h (snd (writeByte iw h w framAddr value)) junk framAddr) =
    (0, uint8 value).
Proof.
  intros Hff Ha.
  assert (Hin : out_of_range iw framAddr 1 = false)
    by (apply in_range_one; unfold MAXADDRESS_04; lia).
  rewrite writeByte_fault_free by assumption. cbn [fst snd].
  split; [reflexivity | ].
  match goal with |- fst (readByte _ _ ?w1 _ _) = _ =>
    destruct (readByte_fault_free iw h w1 junk framAddr) as (w2 & Hread & _);
      [split; reflexivity | assumption | rewrite Hread]
  end.
  cbn [fst cells]. unfold set_cell.
  rewrite (selector_low_page h framAddr) by assumption.
  rewrite !Z.eqb_refl. cbn [andb].
  now rewrite !(uint8_small (uint8 value)) by apply uint8_range.
Qed.

Lemma writeByte_readByte_low_page_witness :
  fst (writeByte Int16 fram50 blank 255 171) = 0 /\
  fst (readByte Int16 fram50 (snd (writeByte Int16 fram50 blank 255 171)) [] 255) =
    (0, uint8 171).
Proof.
  apply (writeByte_readByte_low_page Int16 fram50 blank [] 255 171);
    [split; reflexivity | lia].
Defined.

(** X4: on a fault-free bus [readByte] at address 256 + k returns what
    [readByte] at address k returns, for every k below 256: the read
    request goes to the handle's own selector, so a read never reaches
    the page that address bit 8 selects. *)
Theorem readByte_ignores_address_bit_8 iw h w junk junk' k :
  fault_free w -> 0 <= k < 256 ->
  fst (readByte iw h w junk (k + 256)) = fst (readByte iw h w junk' k).
Proof.
  intros Hff Hk.
  destruct (readByte_fault_free iw h w junk (k + 256) Hff) as (w1 & Hhigh & _);
    [apply in_range_one; unfold MAXADDRESS_04; lia | ].
  destruct (readByte_fault_free iw h w junk' k Hff) as (w2 & Hlow & _);
    [apply in_range_one; unfold MAXADDRESS_04; lia | ].
  rewrite Hhigh, Hlow. cbn [fst]. do 3 f_equal.
  change 255 with (Z.ones 8). rewrite !Z.land_ones by lia.
  change (2 ^ 8) with 256.
  rewrite <- (Z.mul_1_l 256) at 1. now rewrite Z.mod_add by lia.
Qed.

Lemma readByte_ignores_address_bit_8_witness :
  fst (readByte Int16 fram50 page1_F0 [] (0 + 256)) =
  fst (readByte Int16 fram50 page1_F0 [] 0).
Proof.
  apply (readByte_ignores_address_bit_8 Int16 fram50 page1_F0 [] [] 0);
    [split; reflexivity | lia].
Defined.

(** ** Edge cases of the transfer primitives *)

(** X5: a read of length 0 never touches the bus or the caller's buffer,
    whatever the address.  It is answered with ERROR_8 exactly when the
    address is inside the device and the range check does not wrap
    (address 0 passes the check only where [int] has 32 bits); otherwise
    with ERROR_11. *)
Theorem readArray_zero_length iw h w framAddr values :
  0 <= framAddr < 65536 ->
  snd (fst (readArray iw h w framAddr 0 values)) = values /\
  snd (readArray iw h w framAddr 0 values) = w /\
  (fst (fst (readArray iw h w framAddr 0 values)) = ERROR_8 <->
     framAddr < MAXADDRESS_04 /\ (1 <= framAddr \/ iw = Int32)) /\
  (fst (fst (readArray iw h w framAddr 0 values)) = ERROR_11 <->
     ~ (framAddr < MAXADDRESS_04 /\ (1 <= framAddr \/ iw = Int32))).
Proof.
  intros Ha.
  assert (Hcases :
    (framAddr < MAXADDRESS_04 /\ (1 <= framAddr \/ iw = Int32)) /\
      readArray iw h w framAddr 0 values = (ERROR_8, values, w)
    \/ ~ (framAddr < MAXADDRESS_04 /\ (1 <= framAddr \/ iw = Int32)) /\
      readArray iw h w framAddr 0 values = (ERROR_11, values, w)).
  { destruct (Z.lt_ge_cases framAddr MAXADDRESS_04) as [Hsmall | Hbig].
    - destruct (Z.eq_dec framAddr 0) as [-> | Hpos].
      + destruct iw.
        * right. split; [ | reflexivity].
          intros [_ [Hone | Hiw]]; [lia | discriminate].
        * left. split; [ | reflexivity].
          split; [reflexivity | now right].
      + left. split; [split; [assumption | left; lia] | ].
        apply readArray_empty_request; lia.
    - right. split; [lia | ].
      unfold readArray, out_of_range.
      apply Z.leb_le in Hbig. now rewrite Hbig. }
  destruct Hcases as [[Hyes ->] | [Hno ->]]; cbn [fst snd];
    (split; [reflexivity | ]); (split; [reflexivity | ]); split; split;
    intros Hx; try reflexivity; try discriminate; try assumption;
    try contradiction.
Qed.

Lemma readArray_zero_length_witness :
  snd (fst (readArray Int32 fram50 blank 0 0 [7])) = [7] /\
  snd (readArray Int32 fram50 blank 0 0 [7]) = blank /\
  (fst (fst (readArray Int32 fram50 blank 0 0 [7])) = ERROR_8 <->
     0 < MAXADDRESS_04 /\ (1 <= 0 \/ Int32 = Int32)) /\
  (fst (fst (readArray Int32 fram50 blank 0 0 [7])) = ERROR_11 <->
     ~ (0 < MAXADDRESS_04 /\ (1 <= 0 \/ Int32 = Int32))).
Proof.
  apply (readArray_zero_length Int32 fram50 blank 0 [7]). lia.
Defined.

(** X6: the calls of an in-range [readArray] of 1 to 255 bytes, whatever
    the bus answers: the address phase under the selector with address
    bit 8 folded in, then, even after an address phase that failed, one
    [requestFrom] under the handle's plain selector and one [read] per
    byte.  The bytes handed back are the values read; no cell changes. *)
Theorem readArray_calls iw h w framAddr items values :
  0 <= framAddr -> 1 <= items <= 255 ->
  framAddr + items <= MAXADDRESS_04 ->
  length values = Z.to_nat items ->
  exists got,
    length got = Z.to_nat items /\
    snd (fst (readArray iw h w framAddr items values)) = map uint8 got /\
    cells (snd (readArray iw h w framAddr items values)) = cells w /\
    calls (snd (readArray iw h w framAddr items values)) =
      calls w
      ++ [CallBeginTransmission (Z.lor (i2c_addr h) (Z.land (Z.shiftr framAddr 8) 1));
          CallWrite (Z.land framAddr 255);
          CallEndTransmission (uint8 (hd 0 (txScript w)));
          CallRequestFrom (i2c_addr h) items]
      ++ map CallRead got.
Proof.
  intros Ha Hn Hfit Hlen.
  pose proof (readArray_state iw h w framAddr items values
                (out_of_range_within iw framAddr items Ha ltac:(lia) Hfit)
                ltac:(lia) Hlen) as Hr.
  cbv zeta in Hr. rewrite Hr. cbn [fst snd cells calls].
  eexists. split; [apply length_reads_of | ].
  split; [reflexivity | ]. split; [reflexivity | ].
  now rewrite (uint8_small items) by lia.
Qed.

Lemma readArray_calls_witness :
  exists got,
    length got = Z.to_nat 2 /\
    snd (fst (readArray Int16 fram50 blank 300 2 [0; 0])) = map uint8 got /\
    cells (snd (readArray Int16 fram50 blank 300 2 [0; 0])) = cells blank /\
    calls (snd (readArray Int16 fram50 blank 300 2 [0; 0])) =
      calls blank
      ++ [CallBeginTransmission (Z.lor (i2c_addr fram50) (Z.land (Z.shiftr 300 8) 1));
          CallWrite (Z.land 300 255);
          CallEndTransmission (uint8 (hd 0 (txScript blank)));
          CallRequestFrom (i2c_addr fram50) 2]
      ++ map CallRead got.
Proof.
  apply (readArray_calls Int16 fram50 blank 300 2 [0; 0]);
    unfold MAXADDRESS_04; simpl; lia.
Defined.

(** X7: when the read request fails, an in-range [readArray] still
    returns the status of its address phase, 0 if that went well, and
    fills the caller's buffer with 0xFF: each [read] yields -1, stored
    into a byte. *)
Theorem readArray_failed_request iw h w framAddr items values :
  0 <= framAddr -> 1 <= items <= 255 ->
  framAddr + items <= MAXADDRESS_04 ->
  length values = Z.to_nat items ->
  hd false (rxScript w) = true ->
  fst (readArray iw h w framAddr items values) =
    (uint8 (hd 0 (txScript w)), repeat 255 (Z.to_nat items)).
Proof.
  intros Ha Hn Hfit Hlen Hfail.
  pose proof (readArray_state iw h w framAddr items values
                (out_of_range_within iw framAddr items Ha ltac:(lia) Hfit)
                ltac:(lia) Hlen) as Hr.
  cbv zeta in Hr. rewrite Hr, Hfail. cbn [fst].
  now rewrite reads_of_nothing, map_repeat.
Qed.

Lemma readArray_failed_request_witness :
  fst (readArray Int16 fram50 (with_rxScript blank [true]) 10 3 [1; 2; 3]) =
    (uint8 (hd 0 (txScript (with_rxScript blank [true]))), repeat 255 (Z.to_nat 3)).
Proof.
  apply (readArray_failed_request Int16 fram50 (with_rxScript blank [true])
           10 3 [1; 2; 3]); unfold MAXADDRESS_04; simpl; (lia || reflexivity).
Defined.

(** X8: [writeArray] has no empty-request code.  With length 0 at an
    address from 1 to 511 it runs a transaction that carries only the
    sub-address, returns the status of that transaction and changes no
    cell. *)
Theorem writeArray_zero_length iw h w framAddr values :
  1 <= framAddr < MAXADDRESS_04 ->
  fst (writeArray iw h w framAddr 0 values) = uint8 (hd 0 (txScript w)) /\
  cells (snd (writeArray iw h w framAddr 0 values)) = cells w /\
  calls (snd (writeArray iw h w framAddr 0 values)) =
    calls w ++ [CallBeginTransmission (selector h framAddr);
                CallWrite (Z.land framAddr 255);
                CallEndTransmission (uint8 (hd 0 (txScript w)))].
Proof.
  intros Ha. unfold MAXADDRESS_04 in Ha.
  assert (Hin : out_of_range iw framAddr 0 = false).
  { unfold out_of_range, last_address, uint16, MAXADDRESS_04.
    apply orb_false_iff; split; apply Z.leb_gt; [lia | ].
    destruct iw; [ | lia].
    rewrite (Z.mod_small (framAddr + 0)) by lia.
    rewrite Z.mod_small by lia. lia. }
  pose proof (writeArray_state iw h w framAddr 0 values Hin) as Hw.
  cbv zeta in Hw. rewrite Hw. cbn [fst snd cells calls Z.to_nat seq map store_bytes app].
  repeat split.
  now destruct (uint8 (hd 0 (txScript w)) =? 0).
Qed.

Lemma writeArray_zero_length_witness :
  fst (writeArray Int16 fram50 blank 7 0 []) = uint8 (hd 0 (txScript blank)) /\
  cells (snd (writeArray Int16 fram50 blank 7 0 [])) = cells blank /\
  calls (snd (writeArray Int16 fram50 blank 7 0 [])) =
    calls blank ++ [CallBeginTransmission (selector fram50 7);
                    CallWrite (Z.land 7 255);
                    CallEndTransmission (uint8 (hd 0 (txScript blank)))].
Proof.
  apply (writeArray_zero_length Int16 fram50 blank 7 []).
  unfold MAXADDRESS_04. lia.
Defined.

(** ** Copying a byte *)

Lemma readByte_out_of_range iw h w junk framAddr :
  out_of_range iw framAddr 1 = true ->
  readByte iw h w junk framAddr = (ERROR_11, uint8 (nth 0 junk 0), w).
Proof.
  intros Hout. unfold readByte, readArray. now rewrite Hout.
Qed.

(** A read never changes a cell, whatever the bus answers. *)
Lemma readByte_cells iw h w junk framAddr :
  cells (snd (readByte iw h w junk framAddr)) = cells w.
Proof.
  destruct (out_of_range iw framAddr 1) eqn:Hrange.
  - now rewrite readByte_out_of_range.
  - unfold readByte.
    pose proof (readArray_state iw h w framAddr 1 (local_buffer 1 junk) Hrange
                  ltac:(discriminate) eq_refl) as Hr.
    cbv zeta in Hr. now rewrite Hr.
Qed.

(** X9: on a fault-free bus [copyByte] from an origin below 256 to any
    destination inside the device returns 0, makes the byte at the
    destination equal to the byte at the origin, and changes no other
    cell. *)
Theorem copyByte_copies iw h w junk origAddr destAddr :
  fault_free w -> 0 <= origAddr < 256 -> 0 <= destAddr < MAXADDRESS_04 ->
  let '(status, w') := copyByte iw h w junk origAddr destAddr in
  status = 0 /\
  byte_at h w' destAddr = uint8 (byte_at h w origAddr) /\
  forall sel off,
    sel <> uint8 (selector h destAddr) \/ off <> uint8 (Z.land destAddr 255) ->
    cells w' sel off = cells w sel off.
Proof.
  intros Hff Ho Hd. unfold copyByte.
  destruct (readByte_fault_free iw h w junk origAddr Hff)
    as (w1 & Hread & Hcells & Hff1 & _);
    [apply in_range_one; unfold MAXADDRESS_04; lia | ].
  rewrite Hread. cbn [local_buffer seq map store nth].
  rewrite writeByte_fault_free by (try assumption; now apply in_range_one).
  split; [reflexivity | ]. unfold byte_at. cbn [cells]. rewrite Hcells.
  rewrite (selector_low_page h origAddr) by assumption.
  split.
  - unfold set_cell. rewrite !Z.eqb_refl. cbn [andb].
    now rewrite !(uint8_small (uint8 _)) by apply uint8_range.
  - intros sel off Hother. unfold set_cell.
    destruct (Z.eqb_spec sel (uint8 (selector h destAddr)));
      destruct (Z.eqb_spec off (uint8 (Z.land destAddr 255)));
      cbn [andb]; try reflexivity.
    destruct Hother; contradiction.
Qed.

Lemma copyByte_copies_witness :
  let '(status, w') := copyByte Int16 fram50 page1_F0 [] 5 300 in
  status = 0 /\
  byte_at fram50 w' 300 = uint8 (byte_at fram50 page1_F0 5) /\
  forall sel off,
    sel <> uint8 (selector fram50 300) \/ off <> uint8 (Z.land 300 255) ->
    cells w' sel off = cells page1_F0 sel off.
Proof.
  apply (copyByte_copies Int16 fram50 page1_F0 [] 5 300);
    [split; reflexivity | lia | unfold MAXADDRESS_04; lia].
Defined.

(** X10: [copyByte] does not look at the status of its read.  With an
    origin beyond the device the read is refused without bus activity,
    yet the write goes ahead: on a fault-free bus the call returns 0 and
    stores at the destination the byte its uninitialised buffer held, in
    one write transaction. *)
Theorem copyByte_origin_out_of_range iw h w junk origAddr destAddr :
  fault_free w -> MAXADDRESS_04 <= origAddr < 65536 ->
  0 <= destAddr < MAXADDRESS_04 ->
  let '(status, w') := copyByte iw h w junk origAddr destAddr in
  status = 0 /\
  byte_at h w' destAddr = uint8 (nth 0 junk 0) /\
  calls w' = calls w ++ byte_write_calls h destAddr (uint8 (nth 0 junk 0)).
Proof.
  intros Hff Ho Hd. unfold copyByte.
  rewrite readByte_out_of_range by now apply beyond_range_one.
  cbn [local_buffer seq map store nth].
  rewrite writeByte_fault_free by (try assumption; now apply in_range_one).
  split; [reflexivity | ]. unfold byte_at. cbn [cells calls].
  split.
  - unfold set_cell. rewrite !Z.eqb_refl. cbn [andb].
    now rewrite !(uint8_small (uint8 _)) by apply uint8_range.
  - now rewrite (uint8_small (uint8 _)) by apply uint8_range.
Qed.

Lemma copyByte_origin_out_of_range_witness :
  let '(status, w') := copyByte Int16 fram50 blank [90] 600 3 in
  status = 0 /\
  byte_at fram50 w' 3 = uint8 (nth 0 [90] 0) /\
  calls w' = calls blank ++ byte_write_calls fram50 3 (uint8 (nth 0 [90] 0)).
Proof.
  apply (copyByte_origin_out_of_range Int16 fram50 blank [90] 600 3);
    [split; reflexivity | unfold MAXADDRESS_04; lia | unfold MAXADDRESS_04; lia].
Defined.

(** X11: [copyByte] to a destination beyond the device returns ERROR_11
    and changes no cell, whatever the origin and whatever the bus
    answers. *)
Theorem copyByte_destination_out_of_range iw h w junk origAddr destAddr :
  MAXADDRESS_04 <= destAddr < 65536 ->
  fst (copyByte iw h w junk origAddr destAddr) = ERROR_11 /\
  cells (snd (copyByte iw h w junk origAddr destAddr)) = cells w.
Proof.
  intros Hd. unfold copyByte.
  pose proof (readByte_cells iw h w junk origAddr) as Hcells.
  destruct (readByte iw h w junk origAddr) as [[result value] w1].
  cbn [snd] in Hcells.
  unfold writeByte, writeArray.
  rewrite beyond_range_one by assumption.
  split; [reflexivity | exact Hcells].
Qed.

Lemma copyByte_destination_out_of_range_witness :
  fst (copyByte Int16 fram50 page1_F0 [] 5 512) = ERROR_11 /\
  cells (snd (copyByte Int16 fram50 page1_F0 [] 5 512)) = cells page1_F0.
Proof.
  apply (copyByte_destination_out_of_range Int16 fram50 page1_F0 [] 5 512).
  unfold MAXADDRESS_04. lia.
Defined.

(** ** Bits *)

Lemma bit_macros b bitNb :
  0 <= b < 256 -> 0 <= bitNb <= 7 ->
  (bitSet b bitNb = Z.lor b (Z.shiftl 1 bitNb) /\
   0 <= bitSet b bitNb < 256 /\ bitRead (bitSet b bitNb) bitNb = 1) /\
  (bitClear b bitNb = Z.ldiff b (Z.shiftl 1 bitNb) /\
   0 <= bitClear b bitNb < 256 /\ bitRead (bitClear b bitNb) bitNb = 0) /\
  bitRead b bitNb = Z.b2z (Z.testbit b bitNb).
Proof.
  intros Hb Hi.
  pose (ok := fun (x y : nat) =>
    let b := Z.of_nat x in
    let i := Z.of_nat y in
    (bitSet b i =? Z.lor b (Z.shiftl 1 i))
    && (0 <=? bitSet b i) && (bitSet b i <? 256)
    && (bitRead (bitSet b i) i =? 1)
    && (bitClear b i =? Z.ldiff b (Z.shiftl 1 i))
    && (0 <=? bitClear b i) && (bitClear b i <? 256)
    && (bitRead (bitClear b i) i =? 0)
    && (bitRead b i =? Z.b2z (Z.testbit b i))).
  assert (Hall : forallb (fun x => forallb (ok x) (seq 0 8)) (seq 0 256) = true)
    by (vm_compute; reflexivity).
  rewrite forallb_forall in Hall.
  specialize (Hall (Z.to_nat b) (below_in_seq 256 b Hb)).
  rewrite forallb_forall in Hall.
  specialize (Hall (Z.to_nat bitNb) (below_in_seq 8 bitNb ltac:(lia))).
  unfold ok in Hall. rewrite !Z2Nat.id in Hall by lia.
  rewrite !andb_true_iff in Hall.
  destruct Hall as [[[[[[[[H1 H2] H3] H4] H5] H6] H7] H8] H9].
  apply Z.eqb_eq in H1, H4, H5, H8, H9.
  apply Z.leb_le in H2, H6. apply Z.ltb_lt in H3, H7.
  repeat split; assumption.
Qed.

Lemma readBit_fault_free iw h w junk framAddr bitNb bit :
  fault_free w -> 0 <= framAddr < MAXADDRESS_04 -> bitNb <= 7 ->
  exists w',
    readBit iw h w junk framAddr bitNb bit =
      (0, uint8 (bitRead (uint8 (cells w (uint8 (i2c_addr h))
                                       (uint8 (Z.land framAddr 255)))) bitNb), w')
    /\ cells w' = cells w /\ fault_free w'.
Proof.
  intros Hff Ha Hbit. unfold readBit.
  destruct (Z.ltb_spec 7 bitNb) as [Hgt | _]; [lia | ].
  destruct (readArray_one_fault_free iw h w junk framAddr Hff
              (in_range_one iw framAddr Ha)) as (w1 & Hread & Hcells & Hff1).
  rewrite Hread. exists w1. repeat split; assumption || apply Hff1.
Qed.

Lemma setOneBit_fault_free iw h w junk framAddr bitNb :
  fault_free w -> 0 <= framAddr < MAXADDRESS_04 -> bitNb <= 7 ->
  let b := uint8 (cells w (uint8 (i2c_addr h)) (uint8 (Z.land framAddr 255))) in
  let '(status, w') := setOneBit iw h w junk framAddr bitNb in
  status = 0 /\ fault_free w' /\
  cells w' = set_cell (cells w) (uint8 (selector h framAddr))
                      (uint8 (Z.land framAddr 255)) (uint8 (bitSet b bitNb)).
Proof.
  intros Hff Ha Hbit b.
  pose proof (in_range_one iw framAddr Ha) as Hin.
  unfold setOneBit.
  destruct (Z.ltb_spec 7 bitNb) as [Hgt | _]; [lia | ].
  destruct (readArray_one_fault_free iw h w junk framAddr Hff Hin)
    as (w1 & Hread & Hcells & [Htx Hrx]).
  rewrite Hread. simpl nth. fold b.
  rewrite writeArray_accepted by assumption.
  rewrite queued_state. unfold endTransmission, deliver. simpl.
  rewrite Htx, Hrx. simpl. rewrite Hcells.
  repeat split.
Qed.

Lemma clearOneBit_fault_free iw h w junk framAddr bitNb :
  fault_free w -> 0 <= framAddr < MAXADDRESS_04 -> bitNb <= 7 ->
  let b := uint8 (cells w (uint8 (i2c_addr h)) (uint8 (Z.land framAddr 255))) in
  let '(status, w') := clearOneBit iw h w junk framAddr bitNb in
  status = 0 /\ fault_free w' /\
  cells w' = set_cell (cells w) (uint8 (selector h framAddr))
                      (uint8 (Z.land framAddr 255)) (uint8 (bitClear b bitNb)).
Proof.
  intros Hff Ha Hbit b.
  pose proof (in_range_one iw framAddr Ha) as Hin.
  unfold clearOneBit.
  destruct (Z.ltb_spec 7 bitNb) as [Hgt | _]; [lia | ].
  destruct (readArray_one_fault_free iw h w junk framAddr Hff Hin)
    as (w1 & Hread & Hcells & [Htx Hrx]).
  rewrite Hread. simpl nth. fold b.
  rewrite writeArray_accepted by assumption.
  rewrite queued_state. unfold endTransmission, deliver. simpl.
  rewrite Htx, Hrx. simpl. rewrite Hcells.
  repeat split.
Qed.

(** Below address 256 the cell a read fetches is the cell a write
    stores to. *)
Lemma byte_at_low_page h w a :
  0 <= a < 256 ->
  cells w (uint8 (i2c_addr h)) (uint8 (Z.land a 255)) = byte_at h w a.
Proof.
  intros Ha. unfold byte_at. now rewrite selector_low_page.
Qed.

Lemma byte_at_written h c a v :
  set_cell c (uint8 (selector h a)) (uint8 (Z.land a 255)) v
           (uint8 (selector h a)) (uint8 (Z.land a 255)) = v.
Proof. unfold set_cell. now rewrite !Z.eqb_refl. Qed.

(** X12: on a fault-free bus, below address 256 and for a bit index of
    0 to 7, [readBit] returns status 0 and the value of that bit of the
    byte stored at the address, and changes no cell. *)
Theorem readBit_reads_bit iw h w junk framAddr bitNb bit :
  fault_free w -> 0 <= framAddr < 256 -> 0 <= bitNb <= 7 ->
  0 <= byte_at h w framAddr < 256 ->
  fst (readBit iw h w junk framAddr bitNb bit) =
    (0, Z.b2z (Z.testbit (byte_at h w framAddr) bitNb)) /\
  cells (snd (readBit iw h w junk framAddr bitNb bit)) = cells w.
Proof.
  intros Hff Ha Hbit Hb.
  destruct (readBit_fault_free iw h w junk framAddr bitNb bit Hff)
    as (w' & Hread & Hcells & _); [unfold MAXADDRESS_04; lia | lia | ].
  rewrite Hread. cbn [fst snd]. split; [ | exact Hcells].
  rewrite byte_at_low_page by assumption.
  rewrite (uint8_small (byte_at h w framAddr)) by assumption.
  destruct (bit_macros _ bitNb Hb Hbit) as (_ & _ & Hread_bit).
  rewrite Hread_bit. f_equal. apply uint8_small.
  destruct (Z.testbit (byte_at h w framAddr) bitNb); simpl; lia.
Qed.

Lemma readBit_reads_bit_witness :
  fst (readBit Int16 fram50 page1_F0 [] 0 3 1) =
    (0, Z.b2z (Z.testbit (byte_at fram50 page1_F0 0) 3)) /\
  cells (snd (readBit Int16 fram50 page1_F0 [] 0 3 1)) = cells page1_F0.
Proof.
  apply (readBit_reads_bit Int16 fram50 page1_F0 [] 0 3 1);
    [split; reflexivity | lia | lia | vm_compute; split; [discriminate | reflexivity]].
Defined.

(** X13: on a fault-free bus, below address 256 and for a bit index of
    0 to 7, [setOneBit] returns 0 and ORs the bit into the byte stored at
    the address, leaving its other bits as they were; [readBit] of that
    bit then yields 1. *)
Theorem setOneBit_sets_bit iw h w junk junk' framAddr bitNb bit :
  fault_free w -> 0 <= framAddr < 256 -> 0 <= bitNb <= 7 ->
  0 <= byte_at h w framAddr < 256 ->
  let '(status, w') := setOneBit iw h w junk framAddr bitNb in
  status = 0 /\
  byte_at h w' framAddr = Z.lor (byte_at h w framAddr) (Z.shiftl 1 bitNb) /\
  fst (readBit iw h w' junk' framAddr bitNb bit) = (0, 1).
Proof.
  intros Hff Ha Hbit Hb.
  pose proof (setOneBit_fault_free iw h w junk framAddr bitNb Hff
                ltac:(unfold MAXADDRESS_04; lia) ltac:(lia)) as Hset.
  cbv zeta in Hset.
  destruct (setOneBit iw h w junk framAddr bitNb) as [status w'].
  destruct Hset as (Hstatus & Hff' & Hcells).
  rewrite byte_at_low_page, (uint8_small (byte_at h w framAddr)) in Hcells
    by assumption.
  destruct (bit_macros _ bitNb Hb Hbit) as ((Hor & Hrange & Hone) & _ & _).
  rewrite (uint8_small (bitSet _ _)) in Hcells by assumption.
  assert (Hbyte : byte_at h w' framAddr = bitSet (byte_at h w framAddr) bitNb)
    by (unfold byte_at at 1; rewrite Hcells; apply byte_at_written).
  split; [exact Hstatus | ]. split; [now rewrite Hbyte | ].
  destruct (readBit_fault_free iw h w' junk' framAddr bitNb bit Hff')
    as (w2 & Hread & _); [unfold MAXADDRESS_04; lia | lia | ].
  rewrite Hread. cbn [fst].
  rewrite byte_at_low_page, Hbyte by assumption.
  now rewrite (uint8_small (bitSet _ _)), Hone by assumption.
Qed.

Lemma setOneBit_sets_bit_witness :
  let '(status, w') := setOneBit Int16 fram50 blank [] 7 2 in
  status = 0 /\
  byte_at fram50 w' 7 = Z.lor (byte_at fram50 blank 7) (Z.shiftl 1 2) /\
  fst (readBit Int16 fram50 w' [] 7 2 0) = (0, 1).
Proof.
  apply (setOneBit_sets_bit Int16 fram50 blank [] [] 7 2 0);
    [split; reflexivity | lia | lia | vm_compute; split; [discriminate | reflexivity]].
Defined.

(** X14: on a fault-free bus, below address 256 and for a bit index of
    0 to 7, [clearOneBit] returns 0 and removes the bit from the byte
    stored at the address, leaving its other bits as they were;
    [readBit] of that bit then yields 0. *)
Theorem clearOneBit_clears_bit iw h w junk junk' framAddr bitNb bit :
  fault_free w -> 0 <= framAddr < 256 -> 0 <= bitNb <= 7 ->
  0 <= byte_at h w framAddr < 256 ->
  let '(status, w') := clearOneBit iw h w junk framAddr bitNb in
  status = 0 /\
  byte_at h w' framAddr = Z.ldiff (byte_at h w framAddr) (Z.shiftl 1 bitNb) /\
  fst (readBit iw h w' junk' framAddr bitNb bit) = (0, 0).
Proof.
  intros Hff Ha Hbit Hb.
  pose proof (clearOneBit_fault_free iw h w junk framAddr bitNb Hff
                ltac:(unfold MAXADDRESS_04; lia) ltac:(lia)) as Hclear.
  cbv zeta in Hclear.
  destruct (clearOneBit iw h w junk framAddr bitNb) as [status w'].
  destruct Hclear as (Hstatus & Hff' & Hcells).
  rewrite byte_at_low_page, (uint8_small (byte_at h w framAddr)) in Hcells
    by assumption.
  destruct (bit_macros _ bitNb Hb Hbit) as (_ & (Hdiff & Hrange & Hzero) & _).
  rewrite (uint8_small (bitClear _ _)) in Hcells by assumption.
  assert (Hbyte : byte_at h w' framAddr = bitClear (byte_at h w framAddr) bitNb)
    by (unfold byte_at at 1; rewrite Hcells; apply byte_at_written).
  split; [exact Hstatus | ]. split; [now rewrite Hbyte | ].
  destruct (readBit_fault_free iw h w' junk' framAddr bitNb bit Hff')
    as (w2 & Hread & _); [unfold MAXADDRESS_04; lia | lia | ].
  rewrite Hread. cbn [fst].
  rewrite byte_at_low_page, Hbyte by assumption.
  now rewrite (uint8_small (bitClear _ _)), Hzero by assumption.
Qed.

Lemma clearOneBit_clears_bit_witness :
  let '(status, w') := clearOneBit Int16 fram50 blank [] 7 2 in
  status = 0 /\
  byte_at fram50 w' 7 = Z.ldiff (byte_at fram50 blank 7) (Z.shiftl 1 2) /\
  fst (readBit Int16 fram50 w' [] 7 2 1) = (0, 0).
Proof.
  apply (clearOneBit_clears_bit Int16 fram50 blank [] [] 7 2 1);
    [split; reflexivity | lia | lia | vm_compute; split; [discriminate | reflexivity]].
Defined.

(** X15: on a fault-free bus, below address 256 and for a bit index of
    0 to 7, [toggleBit] returns 0 and flips exactly that bit of the byte
    stored at the address; a second [toggleBit] restores the byte. *)
Theorem toggleBit_low_page iw h w junk junk' framAddr bitNb :
  fault_free w -> 0 <= framAddr < 256 -> 0 <= bitNb <= 7 ->
  0 <= byte_at h w framAddr < 256 ->
  let '(status1, w1) := toggleBit iw h w junk framAddr bitNb in
  let '(status2, w2) := toggleBit iw h w1 junk' framAddr bitNb in
  status1 = 0 /\
  byte_at h w1 framAddr = Z.lxor (byte_at h w framAddr) (Z.shiftl 1 bitNb) /\
  status2 = 0 /\
  byte_at h w2 framAddr = byte_at h w framAddr.
Proof.
  intros Hff Ha Hbit Hb.
  assert (Ha' : 0 <= framAddr < MAXADDRESS_04) by (unfold MAXADDRESS_04; lia).
  pose proof (toggleBit_fault_free iw h w junk framAddr bitNb Hff Ha'
                ltac:(lia)) as H1.
  cbv zeta in H1.
  destruct (toggleBit iw h w junk framAddr bitNb) as [status1 w1].
  destruct H1 as (Hst1 & Hff1 & Hc1).
  pose proof (toggleBit_fault_free iw h w1 junk' framAddr bitNb Hff1 Ha'
                ltac:(lia)) as H2.
  cbv zeta in H2.
  destruct (toggleBit iw h w1 junk' framAddr bitNb) as [status2 w2].
  destruct H2 as (Hst2 & _ & Hc2).
  destruct (toggled_is_xor _ bitNb Hb Hbit) as (Hxor & Hrange & Hback).
  rewrite byte_at_low_page, (uint8_small (byte_at h w framAddr)) in Hc1
    by assumption.
  rewrite (uint8_small (toggled _ _)) in Hc1 by assumption.
  assert (Hbyte1 : byte_at h w1 framAddr = toggled (byte_at h w framAddr) bitNb)
    by (unfold byte_at at 1; rewrite Hc1; apply byte_at_written).
  rewrite byte_at_low_page, Hbyte1 in Hc2 by assumption.
  rewrite (uint8_small (toggled (byte_at h w framAddr) bitNb)), Hback in Hc2
    by assumption.
  rewrite (uint8_small (byte_at h w framAddr)) in Hc2 by assumption.
  repeat split; try assumption.
  - now rewrite Hbyte1.
  - unfold byte_at at 1. rewrite Hc2. apply byte_at_written.
Qed.

Lemma toggleBit_low_page_witness :
  let '(status1, w1) := toggleBit Int16 fram50 blank [] 9 4 in
  let '(status2, w2) := toggleBit Int16 fram50 w1 [] 9 4 in
  status1 = 0 /\
  byte_at fram50 w1 9 = Z.lxor (byte_at fram50 blank 9) (Z.shiftl 1 4) /\
  status2 = 0 /\
  byte_at fram50 w2 9 = byte_at fram50 blank 9.
Proof.
  apply (toggleBit_low_page Int16 fram50 blank [] [] 9 4);
    [split; reflexivity | lia | lia | vm_compute; split; [discriminate | reflexivity]].
Defined.

(** X16: with a valid bit index and an address beyond the device, the
    four bit functions return ERROR_11 and record no bus call: both the
    read and the write are refused.  [readBit] still assigns its
    out-parameter, from the buffer it never filled. *)
Theorem bit_functions_address_out_of_range iw h w junk framAddr bitNb bit :
  MAXADDRESS_04 <= framAddr < 65536 -> bitNb <= 7 ->
  readBit iw h w junk framAddr bitNb bit =
    (ERROR_11, uint8 (bitRead (uint8 (nth 0 junk 0)) bitNb), w) /\
  setOneBit iw h w junk framAddr bitNb = (ERROR_11, w) /\
  clearOneBit iw h w junk framAddr bitNb = (ERROR_11, w) /\
  toggleBit iw h w junk framAddr bitNb = (ERROR_11, w).
Proof.
  intros Ha Hbit.
  pose proof (beyond_range_one iw framAddr Ha) as Hout.
  unfold readBit, setOneBit, clearOneBit, toggleBit, readArray, writeArray.
  destruct (Z.ltb_spec 7 bitNb) as [Hgt | _]; [lia | ].
  rewrite Hout. cbn [local_buffer seq map nth].
  repeat split.
Qed.

Lemma bit_functions_address_out_of_range_witness :
  readBit Int16 fram50 blank [255] 512 0 0 =
    (ERROR_11, uint8 (bitRead (uint8 (nth 0 [255] 0)) 0), blank) /\
  setOneBit Int16 fram50 blank [255] 512 0 = (ERROR_11, blank) /\
  clearOneBit Int16 fram50 blank [255] 512 0 = (ERROR_11, blank) /\
  toggleBit Int16 fram50 blank [255] 512 0 = (ERROR_11, blank).
Proof.
  apply (bit_functions_address_out_of_range Int16 fram50 blank [255] 512 0 0);
    unfold MAXADDRESS_04; lia.
Defined.

(** ** Managed write protection and the handle *)

Lemma run_keeps_protection iw manage c s s' :
  run iw manage c s = Some s' ->
  c <> EnableWP -> c <> DisableWP ->
  dev s' = dev s /\ pins s' = pins s.
Proof.
  destruct c; simpl; try (intros [= <-]; split; reflexivity);
    try (intros _ Hen Hdis; congruence).
  destruct (eraseDevice iw (dev s) (bus s)) as [[result w'] | ];
    [intros [= <-]; split; reflexivity | discriminate].
Qed.

(** X17: built with [MANAGE_WP] true, in every state reachable from the
    constructor the last GPIO call recorded is a [digitalWrite] to
    [wpPin] whose level is HIGH exactly when [getWPStatus] is true: the
    status reported always agrees with the level last driven. *)
Theorem managed_status_matches_pin iw manage s :
  manage = true -> reachable iw manage s ->
  exists earlier,
    pins s = earlier ++ [CallDigitalWrite (wpPin (dev s))
                                          (level_of (getWPStatus (dev s)))].
Proof.
  intros -> Hreach.
  induction Hreach as [this g w i2c wp pin d h g' Hnew | s c s' Hreach IH Hrun].
  - unfold constructor, initWP, enableWP, disableWP in Hnew.
    destruct wp; inversion Hnew; subst; cbn;
      exists (g ++ [CallPinMode pin OUTPUT]); reflexivity.
  - destruct IH as [earlier Hpins].
    destruct c;
      try (apply run_keeps_protection in Hrun as [Hdev Hsame];
           [rewrite Hdev, Hsame; now exists earlier | discriminate | discriminate]).
    + cbn in Hrun. inversion Hrun; subst. cbn. now exists (pins s).
    + cbn in Hrun. inversion Hrun; subst. cbn. now exists (pins s).
Qed.

Lemma managed_status_matches_pin_witness :
  exists earlier,
    pins (mkSystem (mkFRAM 0 13 true) blank
                   [CallPinMode 13 OUTPUT; CallDigitalWrite 13 HIGH]) =
    earlier ++ [CallDigitalWrite 13 (level_of true)].
Proof.
  apply (managed_status_matches_pin Int16 true
           (mkSystem (mkFRAM 0 13 true) blank
                     [CallPinMode 13 OUTPUT; CallDigitalWrite 13 HIGH]));
    [reflexivity | ].
  apply (reach_constructed Int16 true (mkFRAM 0 0 false) [] blank 80 true 13 512).
  reflexivity.
Defined.

(** X18: after the constructor and any sequence of public calls, the
    handle's [wpPin] is the pin passed to the constructor and its
    [i2c_addr] is what the storage held before construction: the
    constructor never stores the selector it is given, and no member
    function writes either member. *)
Theorem members_fixed iw manage this g w i2c wp pin chipDensity calls_made s' :
  run_all iw manage calls_made
          (mkSystem (fst (constructor manage this g i2c wp pin chipDensity)) w
                    (snd (constructor manage this g i2c wp pin chipDensity)))
    = Some s' ->
  i2c_addr (dev s') = i2c_addr this /\ wpPin (dev s') = pin.
Proof.
  destruct (constructor_members manage this g i2c wp pin chipDensity)
    as [Hsel Hpin].
  set (s0 := mkSystem _ w _).
  assert (Hstart : i2c_addr (dev s0) = i2c_addr this /\ wpPin (dev s0) = pin)
    by (split; assumption).
  clearbody s0. clear Hsel Hpin.
  revert s0 Hstart.
  induction calls_made as [ | c rest IH]; intros s0 Hstart Hrun.
  - cbn in Hrun. now inversion Hrun; subst.
  - cbn [run_all] in Hrun.
    destruct (run iw manage c s0) as [s1 | ] eqn:Hstep; [ | discriminate].
    apply run_members in Hstep as [Hsel Hpin].
    apply (IH s1); [ | assumption].
    destruct Hstart. split; congruence.
Qed.

Lemma members_fixed_witness :
  i2c_addr (dev (mkSystem (mkFRAM 7 13 false) blank [])) = i2c_addr (mkFRAM 7 0 true)
  /\ wpPin (dev (mkSystem (mkFRAM 7 13 false) blank [])) = 13.
Proof.
  apply (members_fixed Int16 MANAGE_WP (mkFRAM 7 0 true) [] blank 80 false 13 512
           [EnableWP; GetWPStatus]).
  reflexivity.
Defined.

(** ** A failure in the middle of an erase *)

Lemma writeByte_state iw h w framAddr value :
  0 <= framAddr < MAXADDRESS_04 ->
  let status := uint8 (hd 0 (txScript w)) in
  writeByte iw h w framAddr value =
  (status,
   mkWire (if status =? 0
           then set_cell (cells w) (uint8 (selector h framAddr))
                         (uint8 (Z.land framAddr 255)) (uint8 (uint8 value))
           else cells w)
          (if status =? 0
           then snd (advance (uint8 (selector h framAddr),
                              uint8 (Z.land framAddr 255)))
           else latch w)
          (uint8 (selector h framAddr)) [] (rxBuffer w)
          (tl (txScript w)) (rxScript w)
          (calls w ++ [CallBeginTransmission (selector h framAddr);
                       CallWrite (Z.land framAddr 255);
                       CallWrite (uint8 value);
                       CallEndTransmission status])).
Proof.
  intros Ha status. unfold writeByte.
  pose proof (writeArray_state iw h w framAddr 1 [uint8 value]
                (in_range_one iw framAddr Ha)) as Hw.
  cbv zeta in Hw. exact Hw.
Qed.

Lemma cell_addressed_dec h (addrs : list Z) (sel off : Z) :
  (exists a, In a addrs /\ sel = uint8 (selector h a)
             /\ off = uint8 (Z.land a 255))
  \/ (forall a, In a addrs ->
                sel <> uint8 (selector h a) \/ off <> uint8 (Z.land a 255)).
Proof.
  induction addrs as [ | a addrs IH].
  - right. intros a [].
  - destruct IH as [(b & Hb & Hsel & Hoff) | Hmiss].
    + left. exists b. repeat split; try assumption. now right.
    + destruct (Z.eq_dec sel (uint8 (selector h a))) as [Hsel | Hsel].
      * destruct (Z.eq_dec off (uint8 (Z.land a 255))) as [Hoff | Hoff].
        -- left. exists a. repeat split; try assumption. now left.
        -- right. intros b [<- | Hb]; [now right | now apply Hmiss].
      * right. intros b [<- | Hb]; [now left | now apply Hmiss].
Qed.

Lemma erase_in_order_fails iw h (failing : Z) (later : list Z)
    (status : Z) (script : list Z) (done : list Z) :
  forall w,
    (forall a, In a done -> 0 <= a < MAXADDRESS_04) ->
    0 <= failing < MAXADDRESS_04 ->
    uint8 status <> 0 ->
    txScript w = repeat 0 (length done) ++ status :: script ->
    exists w',
      erase_in_order iw h (done ++ failing :: later) w = (uint8 status, w') /\
      txScript w' = script /\
      calls w' = calls w
                 ++ flat_map (fun a => byte_write_calls h a 0) done
                 ++ [CallBeginTransmission (selector h failing);
                     CallWrite (Z.land failing 255);
                     CallWrite 0;
                     CallEndTransmission (uint8 status)] /\
      (forall a, In a done -> byte_at h w' a = 0) /\
      (forall sel off,
         (forall a, In a done ->
                    sel <> uint8 (selector h a) \/ off <> uint8 (Z.land a 255)) ->
         cells w' sel off = cells w sel off).
Proof.
  induction done as [ | a done IH]; intros w Hrange Hfail Hstatus Hscript.
  - cbn [app erase_in_order length repeat] in *.
    rewrite writeByte_state by assumption. rewrite Hscript. cbn [hd tl].
    apply Z.eqb_neq in Hstatus. rewrite Hstatus.
    eexists. split; [reflexivity | ]. cbn [txScript calls cells flat_map app].
    repeat split. intros a [].
  - cbn [app erase_in_order length repeat] in *.
    assert (Ha : 0 <= a < MAXADDRESS_04) by (apply Hrange; now left).
    rewrite writeByte_state by assumption. rewrite Hscript. cbn [hd tl].
    change (uint8 0 =? 0) with true. cbv iota.
    match goal with |- context [erase_in_order iw h _ ?w1] =>
      destruct (IH w1) as (w' & Hrun & Htx & Hcalls & Hzero & Hsame);
        [intros a' Hin; apply Hrange; now right | assumption | assumption
         | reflexivity | ]
    end.
    exists w'. split; [exact Hrun | ]. split; [exact Htx | ].
    cbn [cells calls] in Hcalls, Hsame.
    split; [ | split].
    + rewrite Hcalls. cbn [flat_map byte_write_calls].
      change (uint8 0) with 0. now rewrite <- !app_assoc.
    + intros a' [<- | Hin]; [ | now apply Hzero].
      unfold byte_at.
      destruct (cell_addressed_dec h done (uint8 (selector h a))
                                   (uint8 (Z.land a 255)))
        as [(b & Hb & Hsel & Hoff) | Hmiss].
      * specialize (Hzero b Hb). unfold byte_at in Hzero.
        now rewrite Hsel, Hoff.
      * rewrite Hsame by exact Hmiss. apply byte_at_written.
    + intros sel off Hmiss. rewrite Hsame.
      * unfold set_cell.
        destruct (Hmiss a (or_introl eq_refl)) as [Hsel | Hoff].
        -- destruct (Z.eqb_spec sel (uint8 (selector h a))); [contradiction | reflexivity].
        -- destruct (Z.eqb_spec off (uint8 (Z.land a 255)));
             [contradiction | now rewrite andb_false_r].
      * intros b Hb. apply Hmiss. now right.
Qed.

Lemma addresses_split (k n : nat) :
  (k < n)%nat ->
  addresses n =
  addresses k ++ Z.of_nat k :: map Z.of_nat (seq (S k) (n - S k)).
Proof.
  intros Hk. unfold addresses.
  replace n with (k + S (n - S k))%nat at 1 by lia.
  rewrite seq_app, map_app. reflexivity.
Qed.

(** X19: when the write number k+1 of an erase is the first to fail,
    [eraseDevice] returns the status of that write after exactly k+1
    transactions and tries no further address.  The bytes at the
    addresses 0 .. k-1 are 0x00, and every cell that those writes did not
    address holds what it held before: the erase is left half done. *)
Theorem eraseDevice_stops_at_failure iw h w (k : nat) status script :
  (k < 512)%nat -> uint8 status <> 0 ->
  txScript w = repeat 0 k ++ status :: script ->
  exists w',
    eraseDevice iw h w = Some (uint8 status, w') /\
    txScript w' = script /\
    calls w' = calls w
               ++ flat_map (fun a => byte_write_calls h a 0) (addresses k)
               ++ [CallBeginTransmission (selector h (Z.of_nat k));
                   CallWrite (Z.land (Z.of_nat k) 255);
                   CallWrite 0;
                   CallEndTransmission (uint8 status)] /\
    (forall a, 0 <= a < Z.of_nat k -> byte_at h w' a = 0) /\
    (forall sel off,
       (forall a, 0 <= a < Z.of_nat k ->
                  sel <> uint8 (selector h a) \/ off <> uint8 (Z.land a 255)) ->
       cells w' sel off = cells w sel off).
Proof.
  intros Hk Hstatus Hscript.
  assert (Hrun : eraseDevice iw h w =
            Some (erase_in_order iw h (addresses 512) w)).
  { unfold eraseDevice, addresses.
    now rewrite (eraseDevice_loop_in_order iw h (Z.to_nat MAXADDRESS_04))
      by (unfold MAXADDRESS_04; lia). }
  rewrite Hrun, (addresses_split k 512 Hk).
  destruct (erase_in_order_fails iw h (Z.of_nat k)
              (map Z.of_nat (seq (S k) (512 - S k))) status script
              (addresses k) w)
    as (w' & Herase & Htx & Hcalls & Hzero & Hsame).
  - intros a Ha. apply in_addresses in Ha. unfold MAXADDRESS_04. lia.
  - unfold MAXADDRESS_04. lia.
  - assumption.
  - unfold addresses. now rewrite length_map, length_seq.
  - exists w'. rewrite Herase.
    split; [reflexivity | ]. split; [exact Htx | ]. split; [exact Hcalls | ].
    split.
    + intros a Ha. apply Hzero. now apply in_addresses.
    + intros sel off Hmiss. apply Hsame.
      intros a Ha. apply Hmiss. now apply in_addresses.
Qed.

Lemma eraseDevice_stops_at_failure_witness :
  exists w',
    eraseDevice Int16 fram50
                (mkWire (cells page1_F0) 0 0 [] [] [0; 0; 3] [] []) =
      Some (uint8 3, w') /\
    txScript w' = [] /\
    calls w' = []
               ++ flat_map (fun a => byte_write_calls fram50 a 0) (addresses 2)
               ++ [CallBeginTransmission (selector fram50 (Z.of_nat 2));
                   CallWrite (Z.land (Z.of_nat 2) 255);
                   CallWrite 0;
                   CallEndTransmission (uint8 3)] /\
    (forall a, 0 <= a < Z.of_nat 2 -> byte_at fram50 w' a = 0) /\
    (forall sel off,
       (forall a, 0 <= a < Z.of_nat 2 ->
                  sel <> uint8 (selector fram50 a) \/ off <> uint8 (Z.land a 255)) ->
       cells w' sel off = cells page1_F0 sel off).
Proof.
  apply (eraseDevice_stops_at_failure Int16 fram50
           (mkWire (cells page1_F0) 0 0 [] [] [0; 0; 3] [] []) 2 3 []);
    [lia | discriminate | reflexivity].
Defined.

(** X20: what the constructor does about write protection.  Built with
    [MANAGE_WP] true it configures the pin as an output, drives it HIGH
    or LOW as the [wp] parameter asks, and [getWPStatus] reports [wp].
    Built with [MANAGE_WP] false it makes no GPIO call and [getWPStatus]
    reports false even when [wp] asked for protection. *)
Theorem constructor_write_protect manage this g i2c wp pin chipDensity :
  let '(h, g') := constructor manage this g i2c wp pin chipDensity in
  getWPStatus h = manage && wp /\
  g' = if manage
       then g ++ [CallPinMode pin OUTPUT; CallDigitalWrite pin (level_of wp)]
       else g.
Proof.
  unfold constructor, initWP, enableWP, disableWP, pinMode, digitalWrite.
  destruct manage, wp; cbn; now rewrite <- ?app_assoc.
Qed.
